(** * MyPair: the pairing route of [pair.js]

    A shallow embedding of [src/pair.js] and the properties of its
    phone-number normalisation, of its storage clean-up and of the
    life cycle of one pairing request. *)

From Stdlib Require Import ZArith String Ascii Bool List Lia.
From stdpp Require Import base strings gmap list.

Open Scope string_scope.

(** ** [formatPhoneNumber] (pair.js, lines 28-43) *)

Module Phone.

(** [\d]: an ASCII decimal digit. *)
Definition is_digit (c : ascii) : bool :=
  (Ascii.leb "0" c && Ascii.leb c "9")%char.

(** [[1-9]]. *)
Definition is_nonzero_digit (c : ascii) : bool :=
  (Ascii.leb "1" c && Ascii.leb c "9")%char.

Definition is_plus (c : ascii) : bool := Ascii.eqb c "+".

(** [num.replace(/[^\d+]/g, '')]: every character that is neither a
    digit nor a plus sign is deleted. *)
Fixpoint replace_non_digit_plus (num : string) : string :=
  match num with
  | EmptyString => EmptyString
  | String c rest =>
      if is_digit c || is_plus c
      then String c (replace_non_digit_plus rest)
      else replace_non_digit_plus rest
  end.

(** [formatted.startsWith('+')]. *)
Definition startsWith_plus (s : string) : bool :=
  match s with
  | String c _ => is_plus c
  | EmptyString => false
  end.

(** [formatted.substring(1)]. *)
Definition substring1 (s : string) : string :=
  match s with
  | String _ rest => rest
  | EmptyString => EmptyString
  end.

(** [formatted.match(/^[1-9]\d{1,2}/)]: the matched prefix, or [None]
    for JavaScript's [null].  The quantifier is greedy: a third digit
    is taken when there is one. *)
Definition match_country_code (s : string) : option string :=
  match s with
  | String a (String b rest) =>
      if is_nonzero_digit a && is_digit b then
        match rest with
        | String c _ =>
            if is_digit c
            then Some (String a (String b (String c EmptyString)))
            else Some (String a (String b EmptyString))
        | EmptyString => Some (String a (String b EmptyString))
        end
      else None
  | _ => None
  end.

Definition formatPhoneNumber (num : string) : string :=
  let formatted := replace_non_digit_plus num in
  let formatted :=
    if startsWith_plus formatted then substring1 formatted else formatted in
  match match_country_code formatted with
  | None => "62" ++ formatted
  | Some _ => formatted
  end.

(** The last step of [formatPhoneNumber], on its own. *)
Definition with_country_code (formatted : string) : string :=
  match match_country_code formatted with
  | None => "62" ++ formatted
  | Some _ => formatted
  end.

(** Predicates on strings used to state the results. *)

Fixpoint all_digits (s : string) : bool :=
  match s with
  | EmptyString => true
  | String c rest => is_digit c && all_digits rest
  end.

Fixpoint digits_or_plus (s : string) : bool :=
  match s with
  | EmptyString => true
  | String c rest => (is_digit c || is_plus c) && digits_or_plus rest
  end.

Fixpoint no_plus (s : string) : bool :=
  match s with
  | EmptyString => true
  | String c rest => negb (is_plus c) && no_plus rest
  end.

(** The input holds at most one plus sign, and no digit before it. *)
Fixpoint plus_only_leading (s : string) : bool :=
  match s with
  | EmptyString => true
  | String c rest =>
      if is_plus c || is_digit c then no_plus rest
      else plus_only_leading rest
  end.

(** Leading-country-code form: a non-zero digit followed by a digit. *)
Definition country_code_form (s : string) : bool :=
  match match_country_code s with Some _ => true | None => false end.

(** The digits of a string, in order. *)
Fixpoint digits_of (s : string) : string :=
  match s with
  | EmptyString => EmptyString
  | String c rest =>
      if is_digit c then String c (digits_of rest) else digits_of rest
  end.

End Phone.

(** ** The request handler and its callbacks (pair.js, lines 14-162) *)

Module Pair.

Import Phone.

Definition SESSION_TIMEOUT : Z := 300000.
Definition RECONNECT_INTERVAL : Z := 5000.

(** [path.join(a, b)], without the normalisation of dot segments. *)
Definition path_join (a b : string) : string := a ++ "/" ++ b.

(** A WhatsApp address.  [jidNormalizedUser] belongs to the client
    library; it is kept as a free constructor over the address it is
    given. *)
Inductive jid : Type :=
| jidNormalizedUser (raw : string).

(** The JSON bodies the route answers with. *)
Inductive body : Type :=
| error_body (error : string)
| pairing_body (pairingCode message : string).

Inductive content : Type :=
| document (data mimetype fileName : string)
| text (t : string).

(** The [update] object of a [connection.update] event:
    [connection] and [lastDisconnect?.error?.output?.statusCode],
    each possibly [undefined]. *)
Record update : Type := {
  connection : option string;
  statusCode : option Z
}.

(** Values a promise of the environment resolves with. *)
Inductive value : Type :=
| undefined
| str (s : string)
| auth_state (registered : bool).

Inductive reply : Type :=
| resolved (v : value)
| rejected (message : string).

(** Operations of the environment the code awaits. *)
Inductive extop : Type :=
| fs_rm (dir : string)                     (* fs.rm(dir, { recursive, force }) *)
| useMultiFileAuthState (dir : string)
| delay (ms : Z)
| requestPairingCode (number : string)
| fs_readFile (dir file : string)          (* fs.readFile(path.join(dir, file)) *)
| sendMessage (to : jid) (c : content).

(** Synchronous effects.  Listeners and the timer callback are closures
    in the source; here they carry the variables they capture. *)
Inductive action : Type :=
| logger_info (msg : string)
| logger_warn (msg : string)
| logger_error (msg : string)
| makeWASocket (browser : string) (connectTimeout : Z)
| respond (status : Z) (b : body)          (* res.status(n).json(b); res.json(b) is status 200 *)
| on_creds_update (sessionDir : string)    (* sock.ev.on('creds.update', saveCreds) *)
| on_connection_update (sessionDir number : string)
| setTimeout (sessionDir : string) (ms : Z)
| router_get (path : string).              (* router.get('/', req, res) *)

(** Mutable state read by the code. *)
Inductive cell : Type :=
| creds_registered                         (* sock.authState.creds.registered *)
| res_headersSent.                         (* res.headersSent *)

(** *** Asynchronous code as a resumption monad *)

Inductive prog (A : Type) : Type :=
| Ret (a : A)
| Throw (message : string)
| Exit (code : Z)                          (* process.exit(code) *)
| Do (a : action) (k : prog A)
| Test (c : cell) (k : bool -> prog A)
| Await (op : extop) (k : reply -> prog A).

Arguments Ret {A} a.
Arguments Throw {A} message.
Arguments Exit {A} code.
Arguments Do {A} a k.
Arguments Test {A} c k.
Arguments Await {A} op k.

Fixpoint bind {A B : Type} (f : A -> prog B) (p : prog A) : prog B :=
  match p with
  | Ret a => f a
  | Throw m => Throw m
  | Exit c => Exit c
  | Do a k => Do a (bind f k)
  | Test c k => Test c (fun b => bind f (k b))
  | Await op k => Await op (fun r => bind f (k r))
  end.

#[global] Instance prog_ret : MRet prog := @Ret.
#[global] Instance prog_bind : MBind prog := @bind.

(** [try { p } catch (error) { h error }]. *)
Fixpoint try_catch {A : Type} (p : prog A) (h : string -> prog A) : prog A :=
  match p with
  | Ret a => Ret a
  | Throw m => h m
  | Exit c => Exit c
  | Do a k => Do a (try_catch k h)
  | Test c k => Test c (fun b => try_catch (k b) h)
  | Await op k => Await op (fun r => try_catch (k r) h)
  end.

(** [await op]: a rejection is thrown at the point of the [await]. *)
Definition await (op : extop) : prog value :=
  Await op (fun r =>
    match r with
    | resolved v => Ret v
    | rejected m => Throw m
    end).

Definition do (a : action) : prog unit := Do a (Ret tt).
Definition read (c : cell) : prog bool := Test c Ret.

Definition str_of (v : value) : string :=
  match v with
  | str s => s
  | _ => ""
  end.

(** *** The source, function by function *)

(** Lines 20-26. *)
Definition cleanupSession (dir : string) : prog unit :=
  try_catch
    (await (fs_rm dir) ;; mret tt)
    (fun error => do (logger_error ("Error cleaning up session: " ++ error))).

(** [!number] for the query parameter: [undefined] and the empty
    string are falsy. *)
Definition falsy (number : option string) : bool :=
  match number with
  | None => true
  | Some EmptyString => true
  | Some _ => false
  end.

Definition advisory : string :=
  "*Important Instructions*

🔒 Keep your session file secure
☠️ NEVER SHARE WITH ANYONE

Contact developer: wa.me/263777124998".

(** Lines 96-130: the branch [connection === "open"] of the listener. *)
Definition transfer (sessionDir number : string) : prog unit :=
  do (logger_info "Connection established") ;;
  try_catch
    (let userJid := jidNormalizedUser (number ++ "@s.whatsapp.net") in
     await (delay 5000) ;;
     sessionData ← await (fs_readFile sessionDir "creds.json");
     await (sendMessage userJid
              (document (str_of sessionData) "application/json" "creds.json")) ;;
     await (sendMessage userJid (text advisory)) ;;
     await (delay 1000) ;;
     cleanupSession sessionDir ;;
     Exit 0)
    (fun error =>
       do (logger_error ("Session transfer error: " ++ error)) ;;
       cleanupSession sessionDir ;;
       Exit 1).

(** Lines 134-141: the branch [connection === "close"].  [router.get]
    is the method that line 45 registers the handler with: the call of
    line 137 asks Express to register [req] and [res] as the handlers
    of a route, which it refuses with an exception, since they are not
    functions.  The handler is not run again. *)
Definition disconnected (sessionDir : string) (u : update) : prog unit :=
  if decide (statusCode u ≠ Some 401%Z) then
    do (logger_info "Attempting to reconnect...") ;;
    await (delay RECONNECT_INTERVAL) ;;
    do (router_get "/") ;;
    Throw "Route.get() requires a callback function but got a [object Object]"
  else
    do (logger_error "Authentication failed, please restart") ;;
    cleanupSession sessionDir.

(** Lines 92-143: the [connection.update] listener, closed over
    [sessionDir] and [number]. *)
Definition connection_update (sessionDir number : string) (u : update)
  : prog unit :=
  (if decide (connection u = Some "open") then transfer sessionDir number
   else mret tt) ;;
  if decide (connection u = Some "close") then disconnected sessionDir u
  else mret tt.

(** Lines 146-154: the callback given to [setTimeout]. *)
Definition timeout_callback (sessionDir : string) : prog unit :=
  registered ← read creds_registered;
  if negb registered then
    do (logger_warn "Session initialization timed out") ;;
    cleanupSession sessionDir ;;
    headersSent ← read res_headersSent;
    if negb headersSent then
      do (respond 408 (error_body "Session initialization timed out"))
    else mret tt
  else mret tt.

(** Lines 45-162: the handler of [GET /].  Every [return] of the source
    is in tail position, so the code after an [if] whose branches all
    return is the [else] branch here. *)
Definition handler (cwd : string) (query_number : option string)
  : prog unit :=
  try_catch
    (if falsy query_number then
       do (respond 400 (error_body "Phone number is required"))
     else
       let number := default "" query_number in
       let sessionDir := path_join cwd ("session_" ++ number) in
       cleanupSession sessionDir ;;
       await (useMultiFileAuthState sessionDir) ;;
       do (makeWASocket "Firefox" SESSION_TIMEOUT) ;;
       registered ← read creds_registered;
       if negb registered then
         await (delay 2000) ;;
         let number := formatPhoneNumber number in
         try_catch
           (code ← await (requestPairingCode number);
            do (respond 200
                  (pairing_body (str_of code)
                     "Please enter this pairing code in your WhatsApp app")))
           (fun error =>
              do (logger_error ("Pairing error: " ++ error)) ;;
              cleanupSession sessionDir ;;
              do (respond 500 (error_body "Failed to generate pairing code")))
       else
         do (on_creds_update sessionDir) ;;
         do (on_connection_update sessionDir number) ;;
         do (setTimeout sessionDir SESSION_TIMEOUT))
    (fun error =>
       do (logger_error ("Initialization error: " ++ error)) ;;
       headersSent ← read res_headersSent;
       if negb headersSent then
         do (respond 500 (error_body "Failed to initialize session"))
       else mret tt).

(** *** The world the code runs in *)

(** What an observer sees, in order of occurrence. *)
Inductive entry : Type :=
| did (a : action)
| called (op : extop)
| exited (code : Z).

Record world : Type := {
  fs : gmap string (gmap string string);  (* directory |-> file name |-> content *)
  registered : bool;                      (* sock.authState.creds.registered *)
  headersSent : bool;                     (* res.headersSent *)
  creds_listener : option string;
  connection_listener : option (string * string);
  timer : option string;
  exit_code : option Z;
  trace : list entry
}.

Definition with_fs (f : gmap string (gmap string string)) (w : world) : world :=
  {| fs := f; registered := registered w; headersSent := headersSent w;
     creds_listener := creds_listener w;
     connection_listener := connection_listener w; timer := timer w;
     exit_code := exit_code w; trace := trace w |}.

Definition with_registered (b : bool) (w : world) : world :=
  {| fs := fs w; registered := b; headersSent := headersSent w;
     creds_listener := creds_listener w;
     connection_listener := connection_listener w; timer := timer w;
     exit_code := exit_code w; trace := trace w |}.

Definition with_headersSent (b : bool) (w : world) : world :=
  {| fs := fs w; registered := registered w; headersSent := b;
     creds_listener := creds_listener w;
     connection_listener := connection_listener w; timer := timer w;
     exit_code := exit_code w; trace := trace w |}.

Definition with_creds_listener (l : option string) (w : world) : world :=
  {| fs := fs w; registered := registered w; headersSent := headersSent w;
     creds_listener := l;
     connection_listener := connection_listener w; timer := timer w;
     exit_code := exit_code w; trace := trace w |}.

Definition with_connection_listener (l : option (string * string)) (w : world)
  : world :=
  {| fs := fs w; registered := registered w; headersSent := headersSent w;
     creds_listener := creds_listener w;
     connection_listener := l; timer := timer w;
     exit_code := exit_code w; trace := trace w |}.

Definition with_timer (t : option string) (w : world) : world :=
  {| fs := fs w; registered := registered w; headersSent := headersSent w;
     creds_listener := creds_listener w;
     connection_listener := connection_listener w; timer := t;
     exit_code := exit_code w; trace := trace w |}.

Definition with_exit_code (c : option Z) (w : world) : world :=
  {| fs := fs w; registered := registered w; headersSent := headersSent w;
     creds_listener := creds_listener w;
     connection_listener := connection_listener w; timer := timer w;
     exit_code := c; trace := trace w |}.

Definition log (e : entry) (w : world) : world :=
  {| fs := fs w; registered := registered w; headersSent := headersSent w;
     creds_listener := creds_listener w;
     connection_listener := connection_listener w; timer := timer w;
     exit_code := exit_code w; trace := trace w ++ [e] |}.

(** The world before the request: nothing sent, nothing attached. *)
Definition initial_world (fs0 : gmap string (gmap string string)) : world :=
  {| fs := fs0; registered := false; headersSent := false;
     creds_listener := None; connection_listener := None; timer := None;
     exit_code := None; trace := [] |}.

Definition perform (a : action) (w : world) : world :=
  let w := log (did a) w in
  match a with
  | respond _ _ => with_headersSent true w
  | on_creds_update dir => with_creds_listener (Some dir) w
  | on_connection_update dir number =>
      with_connection_listener (Some (dir, number)) w
  | setTimeout dir _ => with_timer (Some dir) w
  | _ => w
  end.

Definition cell_value (c : cell) (w : world) : bool :=
  match c with
  | creds_registered => registered w
  | res_headersSent => headersSent w
  end.

(** How a piece of code leaves the processor. *)
Inductive status (A : Type) : Type :=
| returned (a : A)
| threw (message : string)
| quit (code : Z)
| suspended (op : extop) (k : reply -> prog A).

Arguments returned {A} a.
Arguments threw {A} message.
Arguments quit {A} code.
Arguments suspended {A} op k.

(** One turn of the event loop: the code runs until it returns, throws,
    ends the process or reaches an [await]. *)
Fixpoint exec {A : Type} (p : prog A) (w : world) : world * status A :=
  match p with
  | Ret a => (w, returned a)
  | Throw m => (w, threw m)
  | Exit c => (log (exited c) (with_exit_code (Some c) w), quit c)
  | Do a k => exec k (perform a w)
  | Test c k => exec (k (cell_value c w)) w
  | Await op k => (log (called op) w, suspended op k)
  end.

Definition registered_of (v : value) : bool :=
  match v with
  | auth_state b => b
  | _ => false
  end.

(** *** Paths *)

(** The components of a path, split at every slash. *)
Fixpoint components (path : string) : list string :=
  match path with
  | EmptyString => [EmptyString]
  | String c rest =>
      if Ascii.eqb c "/" then EmptyString :: components rest
      else match components rest with
           | h :: t => String c h :: t
           | [] => [String c EmptyString]
           end
  end.

(** One component taken from the directories [stack] (innermost first):
    an empty component and [.] stay, [..] goes up (the root is its own
    parent), a name goes down. *)
Definition enter (stack : list string) (component : string) : list string :=
  if String.eqb component "" || String.eqb component "." then stack
  else if String.eqb component ".." then tail stack
  else component :: stack.

(** The directories a path goes through from the root, as the file
    system resolves it.  Paths are absolute, as [process.cwd()] and
    what [path.join] makes of it are. *)
Definition segments (path : string) : list string :=
  rev (fold_left enter (components path) []).

Fixpoint starts_with (a b : list string) : bool :=
  match a, b with
  | [], _ => true
  | x :: a', y :: b' => String.eqb x y && starts_with a' b'
  | _ :: _, [] => false
  end.

(** [k] is the directory [dir] or lies inside it. *)
Definition inside (dir k : string) : bool :=
  starts_with (segments dir) (segments k).

(** [fs.rm(dir, { recursive: true, force: true })] when it succeeds:
    the directory goes with everything inside it. *)
Definition rm_rf (dir : string) (f : gmap string (gmap string string))
  : gmap string (gmap string string) :=
  filter (fun kv => inside dir kv.1 = false) f.

(** [fs.mkdir(dir, { recursive: true })], as [useMultiFileAuthState]
    does for a folder that is missing. *)
Definition mkdir (dir : string) (f : gmap string (gmap string string))
  : gmap string (gmap string string) :=
  match f !! dir with
  | Some _ => f
  | None => <[dir := ∅]> f
  end.

(** The effect of an operation of the environment when it settles, and
    the reply the awaiting code gets.  The environment chooses between
    success and failure; a removal that succeeds removes the directory
    and what is inside it, the authentication state that is loaded fixes [creds.registered],
    and a file can only be read when it is there. *)
Definition settle (op : extop) (r : reply) (w : world) : world * reply :=
  match op, r with
  | fs_rm dir, resolved _ => (with_fs (rm_rf dir (fs w)) w, resolved undefined)
  | useMultiFileAuthState dir, resolved v =>
      (with_registered (registered_of v) (with_fs (mkdir dir (fs w)) w),
       resolved v)
  | fs_readFile dir file, resolved _ =>
      match fs w !! dir ≫= (.!! file) with
      | Some data => (w, resolved (str data))
      | None =>
          (w, rejected ("ENOENT: no such file or directory, open '"
                          ++ path_join dir file ++ "'"))
      end
  | _, _ => (w, r)
  end.

(** A piece of code run alone, the environment answering its awaits
    with [rs] in order. *)
Fixpoint drive {A : Type} (rs : list reply) (p : prog A) (w : world)
  : world * status A :=
  match exec p w with
  | (w', suspended op k) =>
      match rs with
      | r :: rs' => let '(w'', r') := settle op r w' in drive rs' (k r') w''
      | [] => (w', suspended op k)
      end
  | done => done
  end.

(** [n] calls of [cleanupSession(dir)], one after the other. *)
Fixpoint cleanups (n : nat) (dir : string) : prog unit :=
  match n with
  | O => mret tt
  | S n' => cleanupSession dir ;; cleanups n' dir
  end.

(** *** The event loop *)

Abbreviation task := (extop * (reply -> prog unit))%type.

Record system : Type := {
  world_of : world;
  pending : list task                     (* suspended at an await *)
}.

(** Line 182: a promise rejected with nobody to catch it; [reason] is
    the text the template literal makes of the rejection. *)
Definition unhandledRejection (reason : string) : action :=
  logger_error ("Unhandled Rejection: " ++ reason).

(** Where a turn leaves the system: code that reached an [await] joins
    the pending operations, an exception nobody caught is reported, and
    [process.exit] drops everything. *)
Definition park (r : world * status unit) (pool : list task) : system :=
  match r with
  | (w', returned _) => {| world_of := w'; pending := pool |}
  | (w', threw m) =>
      {| world_of := perform (unhandledRejection m) w'; pending := pool |}
  | (w', quit _) => {| world_of := w'; pending := [] |}
  | (w', suspended op k) => {| world_of := w'; pending := pool ++ [(op, k)] |}
  end.

(** A callback is entered and runs its first turn. *)
Definition spawn (p : prog unit) (w : world) (pool : list task) : system :=
  park (exec p w) pool.

(** [saveCreds], the listener of [creds.update]: the credentials are
    written to [creds.json] in the session directory. *)
Definition saveCreds (dir creds : string) (w : world) : world :=
  match fs w !! dir with
  | Some files => with_fs (<[dir := <["creds.json" := creds]> files]> (fs w)) w
  | None =>
      perform (unhandledRejection
                 ("ENOENT: no such file or directory, open '"
                    ++ path_join dir "creds.json" ++ "'")) w
  end.

(** What the environment can do to a running request. *)
Inductive event : Type :=
| settles (i : nat) (r : reply)           (* the i-th pending operation settles *)
| emit_connection_update (u : update)     (* sock.ev.emit('connection.update', u) *)
| emit_creds_update (creds : string)      (* sock.ev.emit('creds.update', creds) *)
| timer_fires
| library_sets_registered (b : bool).     (* the client mutates creds.registered *)

Definition step (e : event) (s : system) : system :=
  let w := world_of s in
  match exit_code w with
  | Some _ => s
  | None =>
      match e with
      | settles i r =>
          match pending s !! i with
          | Some (op, k) =>
              let '(w', r') := settle op r w in
              spawn (k r') w' (delete i (pending s))
          | None => s
          end
      | emit_connection_update u =>
          match connection_listener w with
          | Some (dir, number) =>
              spawn (connection_update dir number u) w (pending s)
          | None => s
          end
      | emit_creds_update creds =>
          match creds_listener w with
          | Some dir =>
              {| world_of := saveCreds dir creds w; pending := pending s |}
          | None => s
          end
      | timer_fires =>
          match timer w with
          | Some dir =>
              spawn (timeout_callback dir) (with_timer None w) (pending s)
          | None => s
          end
      | library_sets_registered b =>
          {| world_of := with_registered b w; pending := pending s |}
      end
  end.

Definition run (es : list event) (s : system) : system :=
  fold_left (fun s e => step e s) es s.

(** A request [GET /?number=...] arrives. *)
Definition start (cwd : string) (query_number : option string)
    (fs0 : gmap string (gmap string string)) : system :=
  spawn (handler cwd query_number) (initial_world fs0) [].

(** The responses written to [res], in order. *)
Fixpoint responses (t : list entry) : list (Z * body) :=
  match t with
  | [] => []
  | did (respond status b) :: t' => (status, b) :: responses t'
  | _ :: t' => responses t'
  end.

(** The world after one call of [cleanupSession(dir)] whose removal
    settles with [r]. *)
Definition after_cleanup (dir : string) (r : reply) (w : world) : world :=
  match r with
  | resolved _ => with_fs (rm_rf dir (fs (log (called (fs_rm dir)) w)))
                    (log (called (fs_rm dir)) w)
  | rejected m =>
      perform (logger_error ("Error cleaning up session: " ++ m))
        (log (called (fs_rm dir)) w)
  end.

(** What a call of [cleanupSession] logs. *)
Definition cleanup_log (r : reply) : list entry :=
  match r with
  | resolved _ => []
  | rejected m => [did (logger_error ("Error cleaning up session: " ++ m))]
  end.

(** The operations awaited by the transfer of lines 98-123, up to the
    clean-up. *)
Definition transfer_ops (dir number data : string) : list extop :=
  let userJid := jidNormalizedUser (number ++ "@s.whatsapp.net") in
  [ delay 5000;
    fs_readFile dir "creds.json";
    sendMessage userJid (document data "application/json" "creds.json");
    sendMessage userJid (text advisory);
    delay 1000 ].

Definition is_resolved (r : reply) : bool :=
  match r with
  | resolved _ => true
  | rejected _ => false
  end.

(** *** Shapes of code, for the response discipline *)

Definition is_respond (a : action) : bool :=
  match a with
  | respond _ _ => true
  | _ => false
  end.

(** Actions that hand a callback to the environment. *)
Definition attaches (a : action) : bool :=
  match a with
  | on_creds_update _ | on_connection_update _ _ | setTimeout _ _ => true
  | _ => false
  end.

(** [guarded unsent p]: [p] writes a response only in a turn in which it
    has read [res.headersSent] as false ([unsent] tells whether that is
    known on entry), and at most once per such reading. *)
Fixpoint guarded (unsent : bool) (p : prog unit) : Prop :=
  match p with
  | Ret _ | Throw _ | Exit _ => True
  | Do a k =>
      if is_respond a then unsent = true ∧ guarded false k
      else guarded unsent k
  | Test creds_registered k => ∀ b : bool, guarded unsent (k b)
  | Test res_headersSent k => guarded true (k false) ∧ guarded false (k true)
  | Await _ k => ∀ r : reply, guarded false (k r)
  end.

(** [solo p]: [p] may respond without looking at [res.headersSent], but
    only before it has attached any callback, and it is guarded from
    its first response or attachment on. *)
Fixpoint solo (p : prog unit) : Prop :=
  match p with
  | Ret _ | Throw _ | Exit _ => True
  | Do a k =>
      if is_respond a then guarded false k
      else if attaches a then guarded true k
      else solo k
  | Test _ k => ∀ b : bool, solo (k b)
  | Await _ k => ∀ r : reply, solo (k r)
  end.

(** [res.headersSent] tells exactly whether a response was written. *)
Definition counted (w : world) : Prop :=
  length (responses (trace w)) = if headersSent w then 1 else 0.

Definition detached (w : world) : Prop :=
  headersSent w = false ∧ creds_listener w = None ∧
  connection_listener w = None ∧ timer w = None.

Definition polite (pool : list task) : Prop :=
  Forall (fun t : task => ∀ r : reply, guarded false (t.2 r)) pool.

(** The invariant of a request: either the handler is the only code in
    flight and nothing is attached or sent yet, or everything in flight
    is guarded. *)
Definition disciplined (s : system) : Prop :=
  counted (world_of s) ∧
  (polite (pending s) ∨
   (detached (world_of s) ∧
    ∃ (op : extop) (k : reply -> prog unit),
      pending s = [(op, k)] ∧ ∀ r : reply, solo (k r))).

(** Nothing is in flight and nothing is attached: no event reaches any
    code of the request. *)
Definition idle (s : system) : Prop :=
  pending s = [] ∧ creds_listener (world_of s) = None ∧
  connection_listener (world_of s) = None ∧ timer (world_of s) = None.

(** What an event can still change then. *)
Definition same_but_registered (w w' : world) : Prop :=
  trace w' = trace w ∧ fs w' = fs w ∧ headersSent w' = headersSent w ∧
  exit_code w' = exit_code w.

(** A request that ends with a pairing code: the session directory is
    cleaned, a fresh state that is not registered is loaded, and the
    remote answers the pairing-code request with ["ABCD1234"]. *)
Definition pairing_issued : system :=
  run (map (settles 0)
         [resolved undefined; resolved (auth_state false);
          resolved undefined; resolved (str "ABCD1234")])
    (start "/app" (Some "0771234567") ∅).

Definition pairing_trace : list entry :=
  [called (fs_rm "/app/session_0771234567");
   called (useMultiFileAuthState "/app/session_0771234567");
   did (makeWASocket "Firefox" SESSION_TIMEOUT);
   called (delay 2000);
   called (requestPairingCode "620771234567");
   did (respond 200
          (pairing_body "ABCD1234"
             "Please enter this pairing code in your WhatsApp app"))].

Definition open_update : update :=
  {| connection := Some "open"; statusCode := None |}.

Definition close_update (code : Z) : update :=
  {| connection := Some "close"; statusCode := Some code |}.

(** A request whose state was registered when it was loaded: the
    callbacks are attached and the handler has returned. *)
Definition listening_request : system :=
  run (map (settles 0) [resolved undefined; resolved (auth_state true)])
    (start "/app" (Some "0771234567") ∅).

(** *** The two phases of a request *)

Definition is_request (op : extop) : bool :=
  match op with
  | requestPairingCode _ => true
  | _ => false
  end.

Definition is_announce (a : action) : bool :=
  match a with
  | logger_info m => String.eqb m "Connection established"
  | _ => false
  end.

Definition is_warning (a : action) : bool :=
  match a with
  | logger_warn m => String.eqb m "Session initialization timed out"
  | _ => false
  end.

Definition timed_out : action :=
  respond 408 (error_body "Session initialization timed out").

(** What a trace tells: a pairing code was asked for, a callback was
    attached, the open connection was announced, the time-out was
    warned of. *)
Definition asked (t : list entry) : bool :=
  existsb (fun e => match e with called op => is_request op | _ => false end) t.

Definition attached (t : list entry) : bool :=
  existsb (fun e => match e with did a => attaches a | _ => false end) t.

Definition announced (t : list entry) : bool :=
  existsb (fun e => match e with did a => is_announce a | _ => false end) t.

Definition warned (t : list entry) : bool :=
  existsb (fun e => match e with did a => is_warning a | _ => false end) t.

(** [callback ann wrn p]: the shape of the code of a listener or of the
    timer.  It attaches nothing and asks for no pairing code; it ends
    the process only with code 0 or 1 and after the announcement; it
    responds only with the 408 and after the warning.  [ann] and [wrn]
    tell whether the announcement and the warning are already made. *)
Fixpoint callback (ann wrn : bool) (p : prog unit) : Prop :=
  match p with
  | Ret _ | Throw _ => True
  | Exit c => ann = true ∧ (c = 0 ∨ c = 1)%Z
  | Do a k =>
      attaches a = false ∧
      (is_respond a = true → wrn = true ∧ a = timed_out) ∧
      callback (ann || is_announce a) (wrn || is_warning a) k
  | Test _ k => ∀ b : bool, callback ann wrn (k b)
  | Await op k => is_request op = false ∧ ∀ r : reply, callback ann wrn (k r)
  end.

(** [ending may_attach p]: the rest of the turn in which the handler
    has responded ([may_attach] false) or attached its callbacks
    ([may_attach] true): it returns without another response, without
    waiting and without ending the process. *)
Fixpoint ending (may_attach : bool) (p : prog unit) : Prop :=
  match p with
  | Ret _ | Throw _ => True
  | Exit _ => False
  | Do a k =>
      is_respond a = false ∧ (attaches a = true → may_attach = true) ∧
      ending may_attach k
  | Test _ k => ∀ b : bool, ending may_attach (k b)
  | Await _ _ => False
  end.

(** [initial has_asked p]: the shape of the handler until it responds
    or attaches.  It never ends the process, and it attaches only if it
    has asked for no pairing code. *)
Fixpoint initial (has_asked : bool) (p : prog unit) : Prop :=
  match p with
  | Ret _ | Throw _ => True
  | Exit _ => False
  | Do a k =>
      if is_respond a then ending false k
      else if attaches a then has_asked = false ∧ ending true k
      else initial has_asked k
  | Test _ k => ∀ b : bool, initial has_asked (k b)
  | Await op k => ∀ r : reply, initial (has_asked || is_request op) (k r)
  end.

(** Nothing attached yet. *)
Definition unattached (w : world) : Prop :=
  creds_listener w = None ∧ connection_listener w = None ∧ timer w = None ∧
  exit_code w = None ∧ attached (trace w) = false.

(** What holds of the world once the callbacks are attached. *)
Definition heard (w : world) : Prop :=
  asked (trace w) = false ∧
  (∀ c : Z, exit_code w = Some c →
     (c = 0 ∨ c = 1)%Z ∧ announced (trace w) = true) ∧
  (∀ resp : Z * body, In resp (responses (trace w)) →
     resp = (408%Z, error_body "Session initialization timed out") ∧
     warned (trace w) = true).

Definition flags_hold (ann wrn : bool) (w : world) : Prop :=
  (ann = true → announced (trace w) = true) ∧
  (wrn = true → warned (trace w) = true).

Definition callbacks (w : world) (pool : list task) : Prop :=
  Forall (fun t : task =>
            ∀ r : reply, ∃ ann wrn : bool,
              flags_hold ann wrn w ∧ callback ann wrn (t.2 r)) pool.

Definition before_attaching (s : system) : Prop :=
  unattached (world_of s) ∧
  (pending s = [] ∨
   ∃ (op : extop) (k : reply -> prog unit) (has_asked : bool),
     pending s = [(op, k)] ∧
     (has_asked = false → asked (trace (world_of s)) = false) ∧
     responses (trace (world_of s)) = [] ∧
     ∀ r : reply, initial has_asked (k r)).

Definition listening (s : system) : Prop :=
  heard (world_of s) ∧ callbacks (world_of s) (pending s).

Definition phased (s : system) : Prop := before_attaching s ∨ listening s.

(** The trace of [w'] continues the trace of [w]. *)
Definition extends (w w' : world) : Prop :=
  ∃ t : list entry, trace w' = (trace w ++ t)%list.

(** *** Whom a request addresses *)

(** The operations a request on [number], with session directory
    [dir], may ask of the environment. *)
Definition own_op (dir number : string) (op : extop) : Prop :=
  match op with
  | fs_rm d | useMultiFileAuthState d => d = dir
  | fs_readFile d file => d = dir ∧ file = "creds.json"
  | requestPairingCode n => n = formatPhoneNumber number
  | sendMessage to _ => to = jidNormalizedUser (number ++ "@s.whatsapp.net")
  | delay _ => True
  end.

Definition own_action (dir number : string) (a : action) : Prop :=
  match a with
  | on_creds_update d | setTimeout d _ => d = dir
  | on_connection_update d n => d = dir ∧ n = number
  | _ => True
  end.

Fixpoint own_code (dir number : string) (p : prog unit) : Prop :=
  match p with
  | Ret _ | Throw _ | Exit _ => True
  | Do a k => own_action dir number a ∧ own_code dir number k
  | Test _ k => ∀ b : bool, own_code dir number (k b)
  | Await op k => own_op dir number op ∧ ∀ r : reply, own_code dir number (k r)
  end.

Definition own_world (dir number : string) (w : world) : Prop :=
  (∀ op : extop, In (called op) (trace w) → own_op dir number op) ∧
  (∀ d n : string, connection_listener w = Some (d, n) → d = dir ∧ n = number) ∧
  (∀ d : string, timer w = Some d → d = dir).

Definition own_system (dir number : string) (s : system) : Prop :=
  own_world dir number (world_of s) ∧
  Forall (fun t : task => ∀ r : reply, own_code dir number (t.2 r))
    (pending s).

End Pair.

(** ** The process-wide handlers (pair.js, lines 164-184) *)

Module Process.

(** [s.includes(e)]: [e] occurs in [s] at some position. *)
Fixpoint includes (s e : string) : bool :=
  String.prefix e s ||
  match s with
  | EmptyString => false
  | String _ rest => includes rest e
  end.

(** Lines 166-174. *)
Definition ignoreErrors : list string :=
  [ "conflict";
    "not-authorized";
    "Socket connection timeout";
    "rate-overlimit";
    "Connection Closed";
    "Timed Out";
    "Value not found" ].

(** What the handler of [uncaughtException] does to the process. *)
Inductive effect : Type :=
| logger_fatal (msg : string)
| process_exit (code : Z).

(** Lines 165-180: the listener of [uncaughtException], on the message
    of the error. *)
Definition uncaughtException (message : string) : list effect :=
  if negb (existsb (fun e => includes message e) ignoreErrors) then
    [logger_fatal ("Uncaught Exception: " ++ message); process_exit 1]
  else [].

End Process.

(** * Properties *)

(** ** Phone-number normalisation *)

Section PhoneFacts.

Import Phone.

Example format_local : formatPhoneNumber "0771234567" = "620771234567".
Proof. reflexivity. Qed.

Example format_international :
  formatPhoneNumber "+62 812-3456" = "628123456".
Proof. reflexivity. Qed.

Example format_empty : formatPhoneNumber "" = "62".
Proof. reflexivity. Qed.

Example format_double_plus : formatPhoneNumber "++1234" = "62+1234".
Proof. reflexivity. Qed.

Lemma is_digit_not_plus (c : ascii) : is_digit c = true → is_plus c = false.
Proof.
  destruct c as [[] [] [] [] [] [] [] []]; try reflexivity; discriminate.
Qed.

Lemma is_plus_not_digit (c : ascii) : is_plus c = true → is_digit c = false.
Proof.
  destruct (is_digit c) eqn:D; [|reflexivity].
  rewrite (is_digit_not_plus c D). discriminate.
Qed.

Lemma nonzero_digit_is_digit (c : ascii) :
  is_nonzero_digit c = true → is_digit c = true.
Proof.
  destruct c as [[] [] [] [] [] [] [] []]; try reflexivity; discriminate.
Qed.

Lemma replace_digits_or_plus (s : string) :
  digits_or_plus (replace_non_digit_plus s) = true.
Proof.
  induction s as [|c s IH]; simpl; [reflexivity|].
  destruct (is_digit c || is_plus c) eqn:E; simpl; [|exact IH].
  rewrite E, IH. reflexivity.
Qed.

Lemma replace_fixed (s : string) :
  digits_or_plus s = true → replace_non_digit_plus s = s.
Proof.
  induction s as [|c s IH]; simpl; [reflexivity|].
  intros [E H]%andb_true_iff. rewrite E, (IH H). reflexivity.
Qed.

Lemma all_digits_replace (s : string) :
  all_digits (replace_non_digit_plus s) = no_plus s.
Proof.
  induction s as [|c s IH]; simpl; [reflexivity|].
  destruct (is_digit c) eqn:D; simpl.
  - rewrite D, IH, (is_digit_not_plus c D). reflexivity.
  - destruct (is_plus c) eqn:P; simpl; [rewrite D; reflexivity | exact IH].
Qed.

Lemma digits_or_plus_substring1 (s : string) :
  digits_or_plus s = true → digits_or_plus (substring1 s) = true.
Proof.
  destruct s as [|c s]; simpl; [tauto|]. intros [_ H]%andb_true_iff. exact H.
Qed.

Lemma formatPhoneNumber_unfold (num : string) :
  formatPhoneNumber num =
  with_country_code
    (if startsWith_plus (replace_non_digit_plus num)
     then substring1 (replace_non_digit_plus num)
     else replace_non_digit_plus num).
Proof. reflexivity. Qed.

Lemma prepend_62 (f : string) : "62" ++ f = String "6" (String "2" f).
Proof. reflexivity. Qed.

Lemma with_country_code_form (f : string) :
  country_code_form (with_country_code f) = true.
Proof.
  unfold with_country_code, country_code_form.
  destruct (match_country_code f) eqn:E; [rewrite E; reflexivity|].
  rewrite prepend_62. destruct f as [|c ?]; [reflexivity|].
  simpl. destruct (is_digit c); reflexivity.
Qed.

Lemma with_country_code_all_digits (f : string) :
  all_digits (with_country_code f) = all_digits f.
Proof.
  unfold with_country_code. destruct (match_country_code f); [reflexivity|].
  rewrite prepend_62. reflexivity.
Qed.

Lemma with_country_code_alphabet (f : string) :
  digits_or_plus f = true → digits_or_plus (with_country_code f) = true.
Proof.
  unfold with_country_code. destruct (match_country_code f); [tauto|].
  rewrite prepend_62. intros H. simpl. exact H.
Qed.

Lemma formatPhoneNumber_form (num : string) :
  country_code_form (formatPhoneNumber num) = true.
Proof. rewrite formatPhoneNumber_unfold. apply with_country_code_form. Qed.

Lemma country_code_form_head (s : string) :
  country_code_form s = true → startsWith_plus s = false ∧ s ≠ "".
Proof.
  unfold country_code_form. destruct s as [|a [|b s]]; simpl; try discriminate.
  destruct (is_nonzero_digit a) eqn:N; simpl; [|discriminate].
  intros _. split; [|discriminate].
  apply is_digit_not_plus, nonzero_digit_is_digit, N.
Qed.

Lemma formatPhoneNumber_alphabet (num : string) :
  digits_or_plus (formatPhoneNumber num) = true.
Proof.
  rewrite formatPhoneNumber_unfold. apply with_country_code_alphabet.
  pose proof (replace_digits_or_plus num) as H.
  destruct (startsWith_plus _); [apply digits_or_plus_substring1|]; exact H.
Qed.

Lemma formatPhoneNumber_all_digits (num : string) :
  all_digits (formatPhoneNumber num) = plus_only_leading num.
Proof.
  rewrite formatPhoneNumber_unfold, with_country_code_all_digits.
  induction num as [|c s IH]; simpl; [reflexivity|].
  destruct (is_digit c) eqn:D; simpl.
  - rewrite (is_digit_not_plus c D). simpl.
    rewrite D, all_digits_replace. reflexivity.
  - destruct (is_plus c) eqn:P; simpl.
    + rewrite P. simpl. apply all_digits_replace.
    + exact IH.
Qed.

(** C7, as amended: for every input, [formatPhoneNumber] returns a
    non-empty string in leading-country-code form (a non-zero digit
    followed by a digit) made of digits and plus signs only, every other
    character being removed; the result consists of digits only exactly
    when the input holds at most one plus sign and no digit before it. *)
Theorem formatPhoneNumber_shape (num : string) :
  formatPhoneNumber num ≠ "" ∧
  country_code_form (formatPhoneNumber num) = true ∧
  digits_or_plus (formatPhoneNumber num) = true ∧
  all_digits (formatPhoneNumber num) = plus_only_leading num.
Proof.
  repeat split.
  - apply (country_code_form_head _ (formatPhoneNumber_form num)).
  - apply formatPhoneNumber_form.
  - apply formatPhoneNumber_alphabet.
  - apply formatPhoneNumber_all_digits.
Qed.

(** C7, as stated, fails: a plus sign inside the number is kept. *)
Lemma formatPhoneNumber_keeps_inner_plus :
  formatPhoneNumber "1+2" = "621+2" ∧
  all_digits (formatPhoneNumber "1+2") = false.
Proof. split; reflexivity. Qed.

(** C10: [formatPhoneNumber] is idempotent. *)
Theorem formatPhoneNumber_idempotent (s : string) :
  formatPhoneNumber (formatPhoneNumber s) = formatPhoneNumber s.
Proof.
  pose proof (formatPhoneNumber_form s) as C.
  pose proof (formatPhoneNumber_alphabet s) as A.
  rewrite (formatPhoneNumber_unfold (formatPhoneNumber s)).
  rewrite (replace_fixed _ A).
  destruct (country_code_form_head _ C) as [-> _].
  unfold with_country_code. unfold country_code_form in C.
  destruct (match_country_code (formatPhoneNumber s)); [reflexivity|discriminate].
Qed.

End PhoneFacts.

(** ** Storage clean-up *)

Section Cleanup.

Import Pair.

(** One call consumes one reply and hands over to what follows. *)
Lemma drive_cleanupSession_then {A : Type} (dir : string) (r : reply)
    (rs : list reply) (k : prog A) (w : world) :
  drive (r :: rs) (cleanupSession dir ;; k) w
  = drive rs k (after_cleanup dir r w).
Proof.
  destruct r as [v|m]; cbn.
  - reflexivity.
  - destruct rs; reflexivity.
Qed.

Lemma drive_cleanupSession (dir : string) (r : reply) (w : world) :
  drive [r] (cleanupSession dir) w = (after_cleanup dir r w, returned tt).
Proof. destruct r; reflexivity. Qed.

Lemma starts_with_refl (a : list string) : starts_with a a = true.
Proof.
  induction a as [|x a IH]; simpl; [reflexivity|].
  rewrite String.eqb_refl. exact IH.
Qed.

Lemma inside_refl (dir : string) : inside dir dir = true.
Proof. apply starts_with_refl. Qed.

Lemma lookup_rm_rf_inside (dir k : string)
    (f : gmap string (gmap string string)) :
  inside dir k = true → rm_rf dir f !! k = None.
Proof.
  intros H. unfold rm_rf. apply map_lookup_filter_None. right.
  intros x _. simpl. congruence.
Qed.

Lemma lookup_rm_rf_outside (dir k : string)
    (f : gmap string (gmap string string)) :
  inside dir k = false → rm_rf dir f !! k = f !! k.
Proof.
  intros H. unfold rm_rf. destruct (f !! k) eqn:E.
  - apply map_lookup_filter_Some. split; [exact E|exact H].
  - apply map_lookup_filter_None. left. exact E.
Qed.

Lemma lookup_rm_rf_self (dir : string) (f : gmap string (gmap string string)) :
  rm_rf dir f !! dir = None.
Proof. apply lookup_rm_rf_inside, inside_refl. Qed.

Lemma rm_rf_idempotent (dir : string) (f : gmap string (gmap string string)) :
  rm_rf dir (rm_rf dir f) = rm_rf dir f.
Proof.
  apply map_eq. intros k. destruct (inside dir k) eqn:I.
  - rewrite !lookup_rm_rf_inside by exact I. reflexivity.
  - apply lookup_rm_rf_outside, I.
Qed.

Lemma rm_rf_nothing (dir : string) (f : gmap string (gmap string string)) :
  (∀ k : string, inside dir k = true → f !! k = None) → rm_rf dir f = f.
Proof.
  intros H. apply map_eq. intros k. destruct (inside dir k) eqn:I.
  - rewrite (H k I). apply lookup_rm_rf_inside, I.
  - apply lookup_rm_rf_outside, I.
Qed.

Lemma after_cleanup_outside (dir dir' : string) (r : reply) (w : world) :
  inside dir dir' = false → fs (after_cleanup dir r w) !! dir' = fs w !! dir'.
Proof.
  intros H. destruct r; simpl; [|reflexivity].
  apply lookup_rm_rf_outside, H.
Qed.

Lemma after_cleanup_nothing (dir : string) (r : reply) (w : world) :
  (∀ k : string, inside dir k = true → fs w !! k = None) →
  fs (after_cleanup dir r w) = fs w.
Proof.
  intros H. destruct r; simpl; [|reflexivity].
  apply rm_rf_nothing, H.
Qed.

Lemma drive_cleanups (dir : string) (rs : list reply) :
  ∀ w : world, ∃ w' : world,
    drive rs (cleanups (length rs) dir) w = (w', returned tt) ∧
    (∀ dir', inside dir dir' = false → fs w' !! dir' = fs w !! dir') ∧
    ((∀ k : string, inside dir k = true → fs w !! k = None) → fs w' = fs w) ∧
    (existsb is_resolved rs = true → fs w' = rm_rf dir (fs w)).
Proof.
  induction rs as [|r rs IH]; intros w.
  - exists w. simpl. repeat split; auto; discriminate.
  - destruct (IH (after_cleanup dir r w)) as (w' & E & O & N & R).
    exists w'. change (cleanups (length (r :: rs)) dir)
      with (cleanupSession dir ;; cleanups (length rs) dir).
    rewrite drive_cleanupSession_then. split; [exact E|]. repeat split.
    + intros dir' H. rewrite (O dir' H). apply after_cleanup_outside, H.
    + intros H. rewrite N; rewrite after_cleanup_nothing; auto.
    + simpl. destruct r as [v|m]; simpl.
      * intros _. destruct (existsb is_resolved rs).
        -- rewrite R by reflexivity. simpl. apply rm_rf_idempotent.
        -- rewrite N; [reflexivity|]. simpl. intros k I.
           apply lookup_rm_rf_inside, I.
      * exact R.
Qed.

(** C8, as amended: [cleanupSession] is total and idempotent.  A call
    never raises, whatever the removal does; a removal that fails is
    logged and swallowed; when nothing of the store is the directory or
    inside it, a call changes no storage; and any number of calls, from
    whatever paths, leave every directory that is neither the directory
    nor inside it as it was and, once one removal has succeeded, the
    same storage as a single successful call: the directory and
    everything inside it are absent. *)
Theorem cleanupSession_idempotent_total (dir : string) (w : world) :
  (∀ r : reply, snd (drive [r] (cleanupSession dir) w) = returned tt) ∧
  (∀ m : string,
     drive [rejected m] (cleanupSession dir) w =
     (perform (logger_error ("Error cleaning up session: " ++ m))
        (log (called (fs_rm dir)) w), returned tt)) ∧
  (∀ rs : list reply, ∃ w' : world,
     drive rs (cleanups (length rs) dir) w = (w', returned tt) ∧
     (∀ dir', inside dir dir' = false → fs w' !! dir' = fs w !! dir') ∧
     ((∀ k : string, inside dir k = true → fs w !! k = None) →
      fs w' = fs w) ∧
     (existsb is_resolved rs = true →
      fs w' = rm_rf dir (fs w) ∧
      ∀ k : string, inside dir k = true → fs w' !! k = None)).
Proof.
  split; [|split].
  - intros r. rewrite drive_cleanupSession. reflexivity.
  - intros m. apply drive_cleanupSession.
  - intros rs. destruct (drive_cleanups dir rs w) as (w' & E & O & N & R).
    exists w'. repeat split; auto.
    intros k I. rewrite (R H). apply lookup_rm_rf_inside, I.
Qed.

(** C8 at a concrete store: three sessions, one inside another; the
    outer one is removed three times, the second removal failing. *)
Lemma cleanupSession_idempotent_total_witness :
  let w := initial_world
             (<["/app/session_1" := ∅]>
                (<["/app/session_1/x" := ∅]>
                   (<["/app/session_2" := ∅]> ∅))) in
  ∃ w' : world,
    drive [resolved undefined; rejected "EPERM"; resolved undefined]
      (cleanups 3 "/app/session_1") w = (w', returned tt) ∧
    fs w' !! "/app/session_2" = Some ∅ ∧
    fs w' !! "/app/session_1" = None ∧
    fs w' !! "/app/session_1/x" = None.
Proof.
  intros w.
  destruct (cleanupSession_idempotent_total "/app/session_1" w)
    as (_ & _ & H).
  destruct (H [resolved undefined; rejected "EPERM"; resolved undefined])
    as (w' & E & O & _ & R).
  exists w'. split; [exact E|]. split; [|split].
  - rewrite O by reflexivity. reflexivity.
  - apply R; reflexivity.
  - apply R; reflexivity.
Defined.

(** C8, as stated, fails: the numbers [1] and [1/x] are two identities,
    the session directory of the second lies inside that of the first,
    and cleaning the first up removes the second with its credentials. *)
Lemma cleanupSession_removes_nested_session :
  let one := path_join "/app" ("session_" ++ "1") in
  let other := path_join "/app" ("session_" ++ "1/x") in
  let w := initial_world
             (<[one := ∅]> (<[other := <["creds.json" := "{}"]> ∅]> ∅)) in
  other ≠ one ∧
  fs w !! other = Some (<["creds.json" := "{}"]> ∅) ∧
  fs (drive [resolved undefined] (cleanupSession one) w).1 !! other = None.
Proof. repeat split. discriminate. Qed.

End Cleanup.

(** ** At most one response *)

Section Responses.

Import Pair.

Lemma responses_snoc (t : list entry) (e : entry) :
  responses (t ++ [e]) =
  (responses t ++ match e with
                  | did (respond status b) => [(status, b)]
                  | _ => []
                  end)%list.
Proof.
  induction t as [|x t IH]; simpl.
  - destruct e as [[]| |]; reflexivity.
  - destruct x as [[]| |]; simpl; rewrite IH; reflexivity.
Qed.

Lemma responses_log_silent (e : entry) (w : world) :
  (∀ status b, e ≠ did (respond status b)) →
  responses (trace (log e w)) = responses (trace w).
Proof.
  intros H. simpl. rewrite responses_snoc.
  destruct e as [[]| |]; try apply app_nil_r. exfalso. eapply H. reflexivity.
Qed.

Lemma counted_log (e : entry) (w : world) :
  (∀ status b, e ≠ did (respond status b)) → counted w → counted (log e w).
Proof.
  unfold counted. intros H C. rewrite responses_log_silent by exact H. exact C.
Qed.

Lemma counted_perform_silent (a : action) (w : world) :
  is_respond a = false → counted w →
  counted (perform a w) ∧ headersSent (perform a w) = headersSent w.
Proof.
  intros H C. unfold counted, perform.
  destruct a; try discriminate; simpl; rewrite responses_snoc, app_nil_r;
    split; solve [exact C | reflexivity].
Qed.

Lemma counted_perform_respond (a : action) (w : world) :
  is_respond a = true → headersSent w = false → counted w →
  counted (perform a w).
Proof.
  unfold counted. intros H U C. destruct a; try discriminate. simpl.
  rewrite responses_snoc, length_app, C, U. reflexivity.
Qed.

Lemma guarded_weaken (p : prog unit) :
  ∀ unsent : bool, guarded false p → guarded unsent p.
Proof.
  induction p as [| | |a k IH|c k IH|op k IH]; intros unsent; simpl; auto.
  - destruct (is_respond a); [intros [? _]; discriminate | apply IH].
  - destruct c; [intros H b; apply IH, H | tauto].
Qed.

(** A guarded turn keeps the count, and what it leaves suspended is
    guarded. *)
Lemma exec_guarded (p : prog unit) :
  ∀ (unsent : bool) (w : world),
    guarded unsent p → (unsent = true → headersSent w = false) → counted w →
    counted (exec p w).1 ∧
    match (exec p w).2 with
    | suspended _ k => ∀ r : reply, guarded false (k r)
    | _ => True
    end.
Proof.
  induction p as [| | |a k IH|c k IH|op k IH]; intros unsent w G U C; simpl.
  - auto.
  - auto.
  - split; [|exact I]. apply counted_log; [discriminate|exact C].
  - simpl in G. destruct (is_respond a) eqn:R.
    + destruct G as [-> G]. apply (IH false); [exact G|discriminate|].
      apply counted_perform_respond; auto.
    + destruct (counted_perform_silent a w R C) as [C' E].
      apply (IH unsent); [exact G|rewrite E; exact U|exact C'].
  - simpl in G. destruct c; simpl.
    + apply (IH _ unsent); auto.
    + destruct G as [G0 G1]. destruct (headersSent w) eqn:E.
      * apply (IH _ false); [exact G1|discriminate|exact C].
      * apply (IH _ true); auto.
  - split; [|exact G]. apply counted_log; [discriminate|exact C].
Qed.

Lemma detached_perform (a : action) (w : world) :
  is_respond a = false → attaches a = false → detached w →
  detached (perform a w).
Proof.
  intros R A D. destruct a; try discriminate; exact D.
Qed.

(** A turn of the handler while it is alone: it ends guarded, or stays
    alone with nothing attached or sent. *)
Lemma exec_solo (p : prog unit) :
  ∀ w : world,
    solo p → detached w → counted w →
    counted (exec p w).1 ∧
    match (exec p w).2 with
    | suspended _ k =>
        (∀ r : reply, guarded false (k r)) ∨
        (detached (exec p w).1 ∧ ∀ r : reply, solo (k r))
    | _ => True
    end.
Proof.
  induction p as [| | |a k IH|c k IH|op k IH]; intros w S D C; simpl.
  - auto.
  - auto.
  - split; [|exact I]. apply counted_log; [discriminate|exact C].
  - simpl in S. destruct (is_respond a) eqn:R.
    + destruct (exec_guarded k false (perform a w) S) as [C' G];
        [discriminate | apply counted_perform_respond; auto; apply D |].
      split; [exact C'|]. destruct (exec k (perform a w)).2; auto.
    + destruct (counted_perform_silent a w R C) as [C' E].
      destruct (attaches a) eqn:A.
      * destruct (exec_guarded k true (perform a w) S) as [C'' G];
          [intros _; rewrite E; apply D | exact C' |].
        split; [exact C''|]. destruct (exec k (perform a w)).2; auto.
      * apply IH; [exact S | apply detached_perform; auto | exact C'].
  - apply IH; auto.
  - split; [apply counted_log; [discriminate|exact C]|].
    right. split; [exact D|exact S].
Qed.

(** Settling an operation touches the storage and [creds.registered]
    only. *)
Lemma settle_frame (op : extop) (r : reply) (w : world) :
  trace (settle op r w).1 = trace w ∧
  headersSent (settle op r w).1 = headersSent w ∧
  creds_listener (settle op r w).1 = creds_listener w ∧
  connection_listener (settle op r w).1 = connection_listener w ∧
  timer (settle op r w).1 = timer w ∧
  exit_code (settle op r w).1 = exit_code w.
Proof.
  destruct op as [dir|dir|ms|number|dir file|to c], r as [v|m]; simpl;
    try destruct (fs w !! dir ≫= (.!! file)); repeat split.
Qed.

Lemma settle_counted (op : extop) (r : reply) (w : world) :
  counted w → counted (settle op r w).1.
Proof.
  unfold counted. destruct (settle_frame op r w) as (-> & -> & _). tauto.
Qed.

Lemma settle_detached (op : extop) (r : reply) (w : world) :
  detached w → detached (settle op r w).1.
Proof.
  unfold detached.
  destruct (settle_frame op r w) as (_ & -> & -> & -> & -> & _). tauto.
Qed.

Lemma saveCreds_counted (dir creds : string) (w : world) :
  counted w → counted (saveCreds dir creds w).
Proof.
  intros C. unfold saveCreds. destruct (fs w !! dir); [exact C|].
  exact (proj1 (counted_perform_silent (unhandledRejection _) w eq_refl C)).
Qed.

Lemma saveCreds_detached (dir creds : string) (w : world) :
  detached w → detached (saveCreds dir creds w).
Proof.
  intros D. unfold saveCreds. destruct (fs w !! dir); exact D.
Qed.

Lemma spawn_guarded (p : prog unit) (w : world) (pool : list task) :
  guarded false p → counted w → polite pool → disciplined (spawn p w pool).
Proof.
  intros G C P.
  destruct (exec_guarded p false w G) as [C' K]; [discriminate|exact C|].
  unfold spawn, park. destruct (exec p w) as [w' [a|m|c|op k]]; simpl in *.
  - split; [exact C'|left; exact P].
  - split; [|left; exact P].
    exact (proj1 (counted_perform_silent (unhandledRejection m) w' eq_refl C')).
  - split; [exact C'|left; apply Forall_nil_2].
  - split; [exact C'|left]. apply Forall_app. split; [exact P|].
    apply Forall_singleton. exact K.
Qed.

Lemma spawn_solo (p : prog unit) (w : world) :
  solo p → detached w → counted w → disciplined (spawn p w []).
Proof.
  intros S D C. destruct (exec_solo p w S D C) as [C' K].
  unfold spawn, park. destruct (exec p w) as [w' [a|m|c|op k]]; simpl in *.
  - split; [exact C'|left; apply Forall_nil_2].
  - split; [|left; apply Forall_nil_2].
    exact (proj1 (counted_perform_silent (unhandledRejection m) w' eq_refl C')).
  - split; [exact C'|left; apply Forall_nil_2].
  - split; [exact C'|]. destruct K as [K|[D' K]].
    + left. apply Forall_singleton. exact K.
    + right. split; [exact D'|]. exists op, k. split; [reflexivity|exact K].
Qed.

(** The three pieces of code of the source have the shapes the
    invariant needs. *)

Ltac shape :=
  repeat (cbn; first [ exact I | reflexivity | split
                     | intros [?|?] | intros [] | intros ? ]).

Lemma timeout_callback_guarded (dir : string) :
  guarded false (timeout_callback dir).
Proof. intros []; shape. Qed.

Lemma connection_update_guarded (dir number : string) (u : update) :
  guarded false (connection_update dir number u).
Proof.
  unfold connection_update, disconnected.
  destruct (decide (connection u = Some "open")),
           (decide (connection u = Some "close")),
           (decide (statusCode u ≠ Some 401%Z)); shape.
Qed.

Lemma handler_solo (cwd : string) (query_number : option string) :
  solo (handler cwd query_number).
Proof.
  destruct query_number as [[|c number]|]; [shape| |shape].
  unfold handler. cbn. intros [v|m]; shape.
Qed.

Lemma step_disciplined (e : event) (s : system) :
  disciplined s → disciplined (step e s).
Proof.
  intros [C H]. unfold step.
  destruct (exit_code (world_of s)); [split; assumption|].
  destruct e as [i r|u|creds| |b].
  - destruct (pending s !! i) as [[op k]|] eqn:L; [|split; assumption].
    destruct (settle op r (world_of s)) as [w' r'] eqn:E.
    assert (C' : counted w')
      by (change w' with (w', r').1; rewrite <- E; apply settle_counted, C).
    destruct H as [P|(D & op0 & k0 & Q & S)].
    + apply spawn_guarded; [|exact C'|apply Forall_delete, P].
      exact (proj1 (Forall_lookup _ _) P i (op, k) L r').
    + rewrite Q in L |- *. destruct i as [|i]; [|discriminate].
      injection L as <- <-. apply spawn_solo; [apply S| |exact C'].
      change w' with (w', r').1. rewrite <- E. apply settle_detached, D.
  - destruct (connection_listener (world_of s)) as [[dir number]|] eqn:L;
      [|split; assumption].
    destruct H as [P|((_ & _ & D & _) & _)]; [|congruence].
    apply spawn_guarded; [apply connection_update_guarded|exact C|exact P].
  - destruct (creds_listener (world_of s)) as [dir|] eqn:L;
      [|split; assumption].
    split; [apply saveCreds_counted, C|]. simpl.
    destruct H as [P|(D & Q)]; [left; exact P|right].
    split; [apply saveCreds_detached, D|exact Q].
  - destruct (timer (world_of s)) as [dir|] eqn:L; [|split; assumption].
    destruct H as [P|((_ & _ & _ & D) & _)]; [|congruence].
    apply spawn_guarded; [apply timeout_callback_guarded|exact C|exact P].
  - split; [exact C|]. simpl.
    destruct H as [P|(D & Q)]; [left; exact P|right; split; assumption].
Qed.

Lemma run_disciplined (es : list event) :
  ∀ s : system, disciplined s → disciplined (run es s).
Proof.
  induction es as [|e es IH]; intros s D; [exact D|].
  apply IH, step_disciplined, D.
Qed.

Lemma start_disciplined (cwd : string) (query_number : option string)
    (fs0 : gmap string (gmap string string)) :
  disciplined (start cwd query_number fs0).
Proof.
  apply spawn_solo; [apply handler_solo| |reflexivity].
  repeat split.
Qed.

End Responses.

(** ** The life cycle of a request *)

Section LifeCycle.

Import Phone Pair.

Lemma drive_nil {A : Type} (p : prog A) (w : world) : drive [] p w = exec p w.
Proof. simpl. destruct (exec p w) as [w' []]; reflexivity. Qed.

Lemma exit_code_perform (a : action) (w : world) :
  exit_code (perform a w) = exit_code w.
Proof. destruct a; reflexivity. Qed.

(** Only [process.exit] ends the process. *)
Lemma exec_exit_code (p : prog unit) :
  ∀ w : world,
    exit_code w = None →
    match (exec p w).2 with
    | quit _ => True
    | _ => exit_code (exec p w).1 = None
    end.
Proof.
  induction p as [| | |a k IH|c k IH|op k IH]; intros w E; simpl; auto.
  - apply IH. rewrite exit_code_perform. exact E.
  - apply IH. exact E.
Qed.

(** Settling an operation that is not pending changes nothing. *)
Lemma run_settles_beyond (n : nat) (rs : list reply) (s : system) :
  (length (pending s) ≤ n)%nat → run (map (settles n) rs) s = s.
Proof.
  intros L. induction rs as [|r rs IH]; [reflexivity|].
  simpl. replace (step (settles n r) s) with s; [exact IH|].
  unfold step. destruct (exit_code (world_of s)); [reflexivity|].
  destruct (pending s !! n) as [t|] eqn:Q; [|reflexivity].
  apply lookup_lt_Some in Q. lia.
Qed.

Lemma run_cons (e : event) (es : list event) (s : system) :
  run (e :: es) s = run es (step e s).
Proof. reflexivity. Qed.

Lemma step_settles (i : nat) (r : reply) (w : world) (pool : list task)
    (op : extop) (k : reply -> prog unit) :
  exit_code w = None → pool !! i = Some (op, k) →
  step (settles i r) {| world_of := w; pending := pool |}
  = spawn (k (settle op r w).2) (settle op r w).1 (delete i pool).
Proof.
  intros E L. unfold step. simpl. rewrite E, L.
  destruct (settle op r w); reflexivity.
Qed.

Lemma delete_middle_last {A : Type} (l : list A) (x : A) :
  delete (length l) (l ++ [x])%list = l.
Proof.
  induction l as [|y l IH]; [reflexivity|]. simpl. f_equal. exact IH.
Qed.

(** A callback whose operations settle one after the other, nothing
    else happening in between, runs as if it were alone. *)
Lemma run_alone (rs : list reply) :
  ∀ (p : prog unit) (w : world) (pool : list task),
    exit_code w = None →
    run (map (settles (length pool)) rs) (spawn p w pool)
    = park (drive rs p w) pool.
Proof.
  induction rs as [|r rs IH]; intros p w pool E.
  - rewrite drive_nil. reflexivity.
  - pose proof (exec_exit_code p w E) as X.
    unfold spawn. simpl drive.
    destruct (exec p w) as [w' [a|m|c|op k]] eqn:Q; simpl in X.
    + apply run_settles_beyond. reflexivity.
    + apply run_settles_beyond. reflexivity.
    + apply run_settles_beyond. simpl. lia.
    + change (map (settles (length pool)) (r :: rs))
        with (settles (length pool) r :: map (settles (length pool)) rs).
      rewrite run_cons. simpl park.
      rewrite (step_settles (length pool) r w' (pool ++ [(op, k)])%list op k X)
        by (apply list_lookup_middle; reflexivity).
      destruct (settle_frame op r w') as (_ & _ & _ & _ & _ & X').
      destruct (settle op r w') as [w'' r']. simpl in *.
      rewrite delete_middle_last. apply IH. congruence.
Qed.

Lemma step_emit_connection_update (s : system) (dir number : string)
    (u : update) :
  exit_code (world_of s) = None →
  connection_listener (world_of s) = Some (dir, number) →
  step (emit_connection_update u) s
  = spawn (connection_update dir number u) (world_of s) (pending s).
Proof. intros E L. unfold step. rewrite E, L. reflexivity. Qed.

Lemma connection_update_open (dir number : string) (u : update) :
  connection u = Some "open" →
  connection_update dir number u = (transfer dir number ;; mret tt).
Proof.
  intros O. unfold connection_update.
  rewrite (decide_True (P := connection u = Some "open")) by exact O.
  rewrite (decide_False (P := connection u = Some "close")) by congruence.
  reflexivity.
Qed.

Lemma connection_update_close (dir number : string) (u : update) :
  connection u = Some "close" →
  connection_update dir number u = disconnected dir u.
Proof.
  intros O. unfold connection_update.
  rewrite (decide_False (P := connection u = Some "open")) by congruence.
  rewrite (decide_True (P := connection u = Some "close")) by exact O.
  reflexivity.
Qed.

Lemma run_emit_connection_update (s : system) (dir number : string)
    (u : update) (rs : list reply) :
  exit_code (world_of s) = None →
  connection_listener (world_of s) = Some (dir, number) →
  run (emit_connection_update u :: map (settles (length (pending s))) rs) s
  = park (drive rs (connection_update dir number u) (world_of s)) (pending s).
Proof.
  intros E L. rewrite run_cons.
  rewrite (step_emit_connection_update s dir number u E L).
  apply run_alone. exact E.
Qed.

Ltac normalize_trace := rewrite <- ?app_assoc; simpl; try reflexivity.

(** X19: where the listener is attached, a [connection = open] update
    makes it wait 5 seconds, read [creds.json] of the session directory,
    send it as a document to the normalised address of the number, send
    the advisory text, wait 1 second, clean the session directory up and
    end the process with code 0; when the file is missing, or when any
    of these operations fails, it logs the error, cleans the session
    directory up and ends the process with code 1. *)
Theorem transfer_sequence (s : system) (dir number : string) (u : update) :
  exit_code (world_of s) = None →
  connection_listener (world_of s) = Some (dir, number) →
  connection u = Some "open" →
  let w := world_of s in
  let after (rs : list reply) : system :=
    run (emit_connection_update u :: map (settles (length (pending s))) rs) s in
  let established := did (logger_info "Connection established") in
  let userJid := jidNormalizedUser (number ++ "@s.whatsapp.net") in
  let ops (data : string) : list extop :=
    [ delay 5000;
      fs_readFile dir "creds.json";
      sendMessage userJid (document data "application/json" "creds.json");
      sendMessage userJid (text
        "*Important Instructions*

🔒 Keep your session file secure
☠️ NEVER SHARE WITH ANYONE

Contact developer: wa.me/263777124998");
      delay 1000 ] in
  let failure (m : string) : list entry :=
    [did (logger_error ("Session transfer error: " ++ m)); called (fs_rm dir)] in
  (∀ (data : string) (v1 v2 v3 v4 v5 : value) (r : reply),
     fs w !! dir ≫= (.!! "creds.json") = Some data →
     let s' :=
       after [resolved v1; resolved v2; resolved v3; resolved v4;
              resolved v5; r] in
     trace (world_of s') =
       (trace w ++ established :: map called (ops data)
          ++ called (fs_rm dir) :: cleanup_log r ++ [exited 0])%list ∧
     exit_code (world_of s') = Some 0%Z ∧ pending s' = [] ∧
     (is_resolved r = true → fs (world_of s') !! dir = None)) ∧
  (∀ (data : string) (vs : list value) (m : string) (r : reply),
     (length vs < 5)%nat →
     (1 < length vs → fs w !! dir ≫= (.!! "creds.json") = Some data)%nat →
     let s' := after (map resolved vs ++ [rejected m; r])%list in
     trace (world_of s') =
       (trace w ++ established
          :: map called (take (S (length vs)) (ops data))
          ++ failure m ++ cleanup_log r ++ [exited 1])%list ∧
     exit_code (world_of s') = Some 1%Z ∧ pending s' = [] ∧
     (is_resolved r = true → fs (world_of s') !! dir = None)) ∧
  (∀ (v1 v2 : value) (r : reply),
     fs w !! dir ≫= (.!! "creds.json") = None →
     let s' := after [resolved v1; resolved v2; r] in
     trace (world_of s') =
       (trace w ++ established
          :: called (delay 5000) :: called (fs_readFile dir "creds.json")
          :: failure ("ENOENT: no such file or directory, open '"
                        ++ path_join dir "creds.json" ++ "'")%string
          ++ cleanup_log r ++ [exited 1])%list ∧
     exit_code (world_of s') = Some 1%Z ∧ pending s' = [] ∧
     (is_resolved r = true → fs (world_of s') !! dir = None)).
Proof.
  intros E L O w after established userJid ops failure.
  assert (A : ∀ rs, after rs =
            park (drive rs (transfer dir number ;; mret tt) w) (pending s)).
  { intros rs. unfold after.
    rewrite (run_emit_connection_update s dir number u rs E L).
    rewrite (connection_update_open dir number u O). reflexivity. }
  split; [|split].
  - intros data v1 v2 v3 v4 v5 r F s'. unfold s'. rewrite A. clear A.
    unfold transfer. cbn. rewrite F. cbn.
    destruct r; cbn; repeat split; normalize_trace;
      solve [discriminate | intros _; apply lookup_rm_rf_self].
  - intros data vs m r B F s'. unfold s'. rewrite A. clear A.
    unfold transfer.
    destruct vs as [|v1 [|v2 [|v3 [|v4 [|v5 vs]]]]]; simpl in B; try lia;
      cbn; try (rewrite F by (simpl; lia); cbn);
      destruct r; cbn; repeat split; normalize_trace;
      solve [discriminate | intros _; apply lookup_rm_rf_self].
  - intros v1 v2 r F s'. unfold s'. rewrite A. clear A.
    unfold transfer. cbn. rewrite F. cbn.
    destruct r; cbn -[path_join]; repeat split; normalize_trace;
      solve [discriminate | intros _; apply lookup_rm_rf_self].
Qed.

(** X19 at a request that found a registered state: the first removal
    of the session directory failed, so the credentials of an earlier
    run were still there when the state was loaded. *)
Lemma transfer_sequence_witness :
  let dir := "/app/session_0771234567" in
  let s := run [settles 0 (rejected "EBUSY: resource busy or locked");
                settles 0 (resolved (auth_state true))]
             (start "/app" (Some "0771234567")
                (<[dir := <["creds.json" := "{registered: true}"]> ∅]> ∅)) in
  let s' := run (emit_connection_update
                   {| connection := Some "open"; statusCode := None |}
                 :: map (settles 0)
                      [resolved undefined; resolved undefined;
                       resolved undefined; resolved undefined;
                       resolved undefined; resolved undefined]) s in
  exit_code (world_of s') = Some 0%Z ∧ fs (world_of s') !! dir = None.
Proof.
  intros dir s s'.
  destruct (transfer_sequence s dir "0771234567"
              {| connection := Some "open"; statusCode := None |}
              eq_refl eq_refl eq_refl) as (H & _ & _).
  destruct (H "{registered: true}" undefined undefined undefined undefined
              undefined (resolved undefined) eq_refl) as (_ & X & _ & F).
  split; [exact X|exact (F eq_refl)].
Defined.

Lemma step_idle (e : event) (s : system) :
  idle s →
  idle (step e s) ∧ same_but_registered (world_of s) (world_of (step e s)).
Proof.
  intros (P & C & L & T). unfold step.
  destruct (exit_code (world_of s)); [repeat split; assumption|].
  destruct e as [i r|u|creds| |b].
  - rewrite P. rewrite lookup_nil. repeat split; assumption.
  - rewrite L. repeat split; assumption.
  - rewrite C. repeat split; assumption.
  - rewrite T. repeat split; assumption.
  - repeat split; assumption.
Qed.

Lemma run_idle (es : list event) :
  ∀ s : system,
    idle s →
    idle (run es s) ∧ same_but_registered (world_of s) (world_of (run es s)).
Proof.
  induction es as [|e es IH]; intros s I.
  - repeat split; apply I.
  - rewrite run_cons. destruct (step_idle e s I) as (I' & T & F & H & X).
    destruct (IH _ I') as (I'' & T' & F' & H' & X').
    split; [exact I''|]. repeat split; congruence.
Qed.

Lemma run_start (cwd : string) (query_number : option string)
    (fs0 : gmap string (gmap string string)) (rs : list reply) :
  run (map (settles 0) rs) (start cwd query_number fs0)
  = park (drive rs (handler cwd query_number) (initial_world fs0)) [].
Proof. apply (run_alone rs _ _ []). reflexivity. Qed.

(** C9: when the fresh state is not registered and the remote rejects
    the pairing-code request, the handler logs the error, cleans the
    session directory up and answers 500 with the error
    "Failed to generate pairing code"; this is the only response, the
    directory is absent when its removal succeeded, and the request is
    over: nothing is pending or attached, so no later event changes
    what was done. *)
Theorem pairing_code_rejected (cwd number : string)
    (fs0 : gmap string (gmap string string)) (r0 r1 : reply)
    (v v' : value) (m : string) :
  number ≠ "" →
  registered_of v = false →
  let dir := path_join cwd ("session_" ++ number) in
  let s := run (map (settles 0)
                  [r0; resolved v; resolved v'; rejected m; r1])
             (start cwd (Some number) fs0) in
  let failed := respond 500 (error_body "Failed to generate pairing code") in
  trace (world_of s) =
    (called (fs_rm dir) :: cleanup_log r0 ++
     [called (useMultiFileAuthState dir);
      did (makeWASocket "Firefox" SESSION_TIMEOUT);
      called (delay 2000);
      called (requestPairingCode (formatPhoneNumber number));
      did (logger_error ("Pairing error: " ++ m));
      called (fs_rm dir)] ++ cleanup_log r1 ++ [did failed])%list ∧
  responses (trace (world_of s)) =
    [(500%Z, error_body "Failed to generate pairing code")] ∧
  (is_resolved r1 = true → fs (world_of s) !! dir = None) ∧
  idle s ∧
  ∀ es : list event,
    idle (run es s) ∧
    same_but_registered (world_of s) (world_of (run es s)).
Proof.
  intros N R dir s failed.
  pose (w1 := after_cleanup dir r0 (initial_world fs0)).
  pose (w2 := with_registered false
                (with_fs (mkdir dir (fs w1))
                   (log (called (useMultiFileAuthState dir)) w1))).
  pose (w3 := log (called (requestPairingCode (formatPhoneNumber number)))
                (log (called (delay 2000))
                   (perform (makeWASocket "Firefox" SESSION_TIMEOUT) w2))).
  assert (I : idle s ∧
    world_of s =
    perform failed
      (after_cleanup dir r1
         (perform (logger_error ("Pairing error: " ++ m)) w3))).
  { unfold s. rewrite run_start.
    destruct number as [|c number]; [congruence|].
    destruct r0, r1; cbn -[formatPhoneNumber path_join String.append];
      rewrite R; cbn -[formatPhoneNumber path_join String.append];
      repeat split. }
  destruct I as [I W].
  split; [|split; [|split; [|split]]].
  - rewrite W. destruct r0, r1; reflexivity.
  - rewrite W. destruct r0, r1; reflexivity.
  - rewrite W. destruct r1; [intros _|discriminate].
    simpl. apply lookup_rm_rf_self.
  - exact I.
  - intros es. apply run_idle, I.
Qed.

(** C9 at a concrete request. *)
Lemma pairing_code_rejected_witness :
  let s := run (map (settles 0)
                  [resolved undefined; resolved (auth_state false);
                   resolved undefined; rejected "rate-overlimit";
                   resolved undefined])
             (start "/app" (Some "0771234567") ∅) in
  responses (trace (world_of s)) =
    [(500%Z, error_body "Failed to generate pairing code")] ∧
  fs (world_of s) !! "/app/session_0771234567" = None ∧
  idle s.
Proof.
  intros s.
  destruct (pairing_code_rejected "/app" "0771234567" ∅
              (resolved undefined) (resolved undefined)
              (auth_state false) undefined "rate-overlimit"
              ltac:(discriminate) eq_refl) as (_ & R & F & I & _).
  split; [exact R|]. split; [exact (F eq_refl)|exact I].
Defined.

(** *** When the state is registered: what the callbacks do *)

(** X9: a state that is registered when it is loaded gets the three
    callbacks of lines 90-154 (the credentials listener, the connection
    listener and the 300-second timer) and no response. *)
Lemma registered_initialisation (cwd number : string)
    (fs0 : gmap string (gmap string string)) (r0 : reply) (v : value) :
  number ≠ "" →
  registered_of v = true →
  let dir := path_join cwd ("session_" ++ number) in
  let s := run (map (settles 0) [r0; resolved v])
             (start cwd (Some number) fs0) in
  trace (world_of s) =
    (called (fs_rm dir) :: cleanup_log r0 ++
     [called (useMultiFileAuthState dir);
      did (makeWASocket "Firefox" SESSION_TIMEOUT);
      did (on_creds_update dir);
      did (on_connection_update dir number);
      did (setTimeout dir SESSION_TIMEOUT)])%list ∧
  creds_listener (world_of s) = Some dir ∧
  connection_listener (world_of s) = Some (dir, number) ∧
  timer (world_of s) = Some dir ∧
  headersSent (world_of s) = false ∧
  pending s = [].
Proof.
  intros N R dir s. unfold s. rewrite run_start.
  destruct number as [|c number]; [congruence|].
  destruct r0; cbn -[path_join String.append]; rewrite R;
    cbn -[path_join String.append]; repeat split.
Qed.

(** X10: where the listener is attached, a close with status 401 is
    logged and the session directory cleaned up (lines 138-141);
    nothing else is done, and what was pending stays pending. *)
Lemma close_unauthorized (s : system) (dir number : string) (u : update)
    (r : reply) :
  exit_code (world_of s) = None →
  connection_listener (world_of s) = Some (dir, number) →
  connection u = Some "close" →
  statusCode u = Some 401%Z →
  let s' := run (emit_connection_update u
                 :: map (settles (length (pending s))) [r]) s in
  trace (world_of s') =
    (trace (world_of s)
       ++ did (logger_error "Authentication failed, please restart")
       :: called (fs_rm dir) :: cleanup_log r)%list ∧
  pending s' = pending s ∧
  (is_resolved r = true → fs (world_of s') !! dir = None).
Proof.
  intros E L C U s'. unfold s'.
  rewrite (run_emit_connection_update s dir number u [r] E L).
  rewrite (connection_update_close dir number u C). unfold disconnected.
  rewrite (decide_False (P := statusCode u ≠ Some 401%Z)) by tauto.
  destruct r; cbn; repeat split; normalize_trace;
    solve [discriminate | intros _; apply lookup_rm_rf_self].
Qed.

(** X11: where the listener is attached, any other close (also one
    without a status code) is logged and, 5 seconds later,
    [router.get('/', req, res)] is called (lines 134-137).  The call
    throws, and the rejection of the listener's promise is reported by
    the handler of line 182.  The session directory, the listeners and
    the timer stay as they are, and no state is loaded and no socket
    made. *)
Lemma close_other (s : system) (dir number : string) (u : update)
    (v : value) :
  exit_code (world_of s) = None →
  connection_listener (world_of s) = Some (dir, number) →
  connection u = Some "close" →
  statusCode u ≠ Some 401%Z →
  let s' := run (emit_connection_update u
                 :: map (settles (length (pending s))) [resolved v]) s in
  (∃ reason : string,
     trace (world_of s') =
       (trace (world_of s)
          ++ [did (logger_info "Attempting to reconnect...");
              called (delay RECONNECT_INTERVAL);
              did (router_get "/");
              did (unhandledRejection reason)])%list) ∧
  pending s' = pending s ∧
  fs (world_of s') = fs (world_of s) ∧
  connection_listener (world_of s') = connection_listener (world_of s) ∧
  timer (world_of s') = timer (world_of s) ∧
  exit_code (world_of s') = None.
Proof.
  intros E L C U s'. unfold s'.
  rewrite (run_emit_connection_update s dir number u [resolved v] E L).
  rewrite (connection_update_close dir number u C). unfold disconnected.
  rewrite (decide_True (P := statusCode u ≠ Some 401%Z)) by exact U.
  cbn. split; [|repeat split; exact E].
  eexists. rewrite <- !app_assoc. reflexivity.
Qed.

(** X12: the timer of lines 146-154, when it was armed.  If the state
    is not registered when it fires, the session directory is cleaned
    up, and the 408 is sent exactly when nothing was sent before; if
    the state is registered, nothing is done.  The timer fires once. *)
Lemma timer_fires_armed (s : system) (dir : string) (r : reply) :
  exit_code (world_of s) = None →
  timer (world_of s) = Some dir →
  let w := world_of s in
  let s' := run (timer_fires :: map (settles (length (pending s))) [r]) s in
  let timed_out :=
    did (respond 408 (error_body "Session initialization timed out")) in
  (registered w = true → trace (world_of s') = trace w) ∧
  (registered w = false →
   trace (world_of s') =
     (trace w ++ did (logger_warn "Session initialization timed out")
        :: called (fs_rm dir) :: cleanup_log r
        ++ (if headersSent w then [] else [timed_out]))%list ∧
   headersSent (world_of s') = true ∧
   (is_resolved r = true → fs (world_of s') !! dir = None)) ∧
  timer (world_of s') = None.
Proof.
  intros E T w s'. subst w s'. rewrite run_cons.
  replace (step timer_fires s)
    with (spawn (timeout_callback dir) (with_timer None (world_of s))
            (pending s))
    by (unfold step; rewrite E, T; reflexivity).
  rewrite run_alone by exact E.
  unfold timeout_callback.
  destruct (registered (world_of s)) eqn:R,
           (headersSent (world_of s)) eqn:H, r; cbn;
    rewrite ?R, ?H; cbn; rewrite ?H; cbn; repeat split; try discriminate;
    try intros _; normalize_trace; try rewrite app_nil_r; try reflexivity;
    try apply lookup_rm_rf_self; try exact H.
Qed.

(** *** After the pairing code: nothing listens *)

(** X8: for every request with a number, a state that is not
    registered and a pairing-code request that succeeds give the code
    as the only response (lines 71-81); the session directory is left
    in place, and the handler has returned with nothing pending or
    attached, so no later event does anything. *)
Lemma pairing_code_returned (cwd number : string)
    (fs0 : gmap string (gmap string string)) (r0 : reply)
    (v v' : value) (code : string) :
  number ≠ "" →
  registered_of v = false →
  let dir := path_join cwd ("session_" ++ number) in
  let s := run (map (settles 0)
                  [r0; resolved v; resolved v'; resolved (str code)])
             (start cwd (Some number) fs0) in
  responses (trace (world_of s)) =
    [(200%Z, pairing_body code
               "Please enter this pairing code in your WhatsApp app")] ∧
  is_Some (fs (world_of s) !! dir) ∧
  idle s ∧
  ∀ es : list event,
    idle (run es s) ∧
    same_but_registered (world_of s) (world_of (run es s)).
Proof.
  intros N R dir s.
  assert (I : idle s ∧
    responses (trace (world_of s)) =
      [(200%Z, pairing_body code
                 "Please enter this pairing code in your WhatsApp app")] ∧
    fs (world_of s) = mkdir dir (fs (after_cleanup dir r0 (initial_world fs0)))).
  { unfold s. rewrite run_start.
    destruct number as [|c number]; [congruence|].
    destruct r0; cbn -[formatPhoneNumber path_join String.append];
      rewrite R; cbn -[formatPhoneNumber path_join String.append];
      repeat split. }
  destruct I as (I & T & F).
  split; [exact T|]. split; [|split; [exact I|]].
  - rewrite F. unfold mkdir.
    destruct (fs (after_cleanup dir r0 (initial_world fs0)) !! dir) eqn:Q.
    + rewrite Q. eauto.
    + rewrite lookup_insert_eq. eauto.
  - intros es. apply run_idle, I.
Qed.

Lemma pairing_issued_idle :
  idle pairing_issued ∧
  trace (world_of pairing_issued) = pairing_trace ∧
  fs (world_of pairing_issued) !! "/app/session_0771234567" = Some ∅ ∧
  exit_code (world_of pairing_issued) = None.
Proof. vm_compute. repeat split. Qed.

Lemma pairing_issued_deaf (es : list event) :
  trace (world_of (run es pairing_issued)) = pairing_trace ∧
  fs (world_of (run es pairing_issued)) !! "/app/session_0771234567"
    = Some ∅ ∧
  exit_code (world_of (run es pairing_issued)) = None.
Proof.
  destruct pairing_issued_idle as (I & T & F & X).
  destruct (run_idle es _ I) as (_ & T' & F' & _ & X').
  rewrite T', F', X'. auto.
Qed.

(** C1, at the failing input: the state is not registered and the
    pairing code is returned.  The handler has returned at line 77,
    before the listeners are attached at lines 90-92: no listener is
    there, and a [connection = open] event, whatever follows it, reads
    no credentials and sends nothing. *)
Theorem open_after_pairing_code_unheard (es : list event) :
  connection_listener (world_of pairing_issued) = None ∧
  creds_listener (world_of pairing_issued) = None ∧
  trace (world_of (run (emit_connection_update open_update :: es)
                     pairing_issued)) = pairing_trace.
Proof.
  split; [apply pairing_issued_idle|]. split; [apply pairing_issued_idle|].
  apply pairing_issued_deaf.
Qed.

(** C2, at the failing input: registration has not completed and the
    connection closes with status 428.  No listener is attached: there
    is no back-off and the session is not initialised again. *)
Theorem close_after_pairing_code_unheard (es : list event) :
  let s := run (emit_connection_update (close_update 428) :: es)
             pairing_issued in
  trace (world_of s) = pairing_trace ∧
  ¬ In (called (delay RECONNECT_INTERVAL)) (trace (world_of s)) ∧
  ¬ In (did (router_get "/")) (trace (world_of s)).
Proof.
  intros s. destruct (pairing_issued_deaf
    (emit_connection_update (close_update 428) :: es)) as (T & _).
  fold s in T. rewrite T. split; [reflexivity|].
  split; simpl; intros H;
    repeat (destruct H as [H|H]; [discriminate|]); exact H.
Qed.

(** C4, at the failing input: the same request.  [setTimeout] was never
    called, so no timer is armed; time passing changes nothing: the
    session directory stays and nothing reports a timeout. *)
Theorem no_timer_after_pairing_code (es : list event) :
  let s := run (timer_fires :: es) pairing_issued in
  timer (world_of pairing_issued) = None ∧
  trace (world_of s) = pairing_trace ∧
  fs (world_of s) !! "/app/session_0771234567" = Some ∅.
Proof.
  intros s. split; [apply pairing_issued_idle|].
  destruct (pairing_issued_deaf (timer_fires :: es)) as (T & F & _).
  split; assumption.
Qed.

(** C5, at the failing input: the same request, and the connection
    closes with status 401.  No listener is attached: the failure is
    not logged and the session directory is not removed. *)
Theorem unauthorized_after_pairing_code_unheard (es : list event) :
  let s := run (emit_connection_update (close_update 401) :: es)
             pairing_issued in
  trace (world_of s) = pairing_trace ∧
  fs (world_of s) !! "/app/session_0771234567" = Some ∅.
Proof.
  intros s.
  destruct (pairing_issued_deaf
    (emit_connection_update (close_update 401) :: es)) as (T & F & _).
  split; assumption.
Qed.

(** C6, at the failing input: the state is not registered, the pairing
    code is returned, and then [connection = open] arrives.  No listener
    is attached, so no step of the transfer is performed, whatever
    follows: nothing is logged, no wait of 5 seconds or of 1 second is
    started, [creds.json] is not read, neither the document nor the
    advisory text is sent, the session directory is not cleaned up and
    the process does not end. *)
Theorem open_after_pairing_code_no_transfer (es : list event)
    (data : string) :
  let dir := "/app/session_0771234567" in
  let s := run (emit_connection_update open_update :: es) pairing_issued in
  ¬ In (did (logger_info "Connection established")) (trace (world_of s)) ∧
  Forall (fun op : extop => ¬ In (called op) (trace (world_of s)))
    (transfer_ops dir "0771234567" data) ∧
  fs (world_of s) !! dir = Some ∅ ∧
  exit_code (world_of s) = None.
Proof.
  intros dir s.
  destruct (pairing_issued_deaf (emit_connection_update open_update :: es))
    as (T & F & X).
  fold s in T, F, X. rewrite T.
  split; [|split; [|split; assumption]].
  - simpl. intros H. repeat (destruct H as [H|H]; [discriminate|]). exact H.
  - unfold transfer_ops.
    repeat (apply Forall_cons; split); [..|exact (Forall_nil_2 _)];
      simpl; intros H;
      repeat (destruct H as [H|H]; [discriminate|]); exact H.
Qed.

Lemma responses_app (t1 t2 : list entry) :
  responses (t1 ++ t2) = (responses t1 ++ responses t2)%list.
Proof.
  induction t1 as [|x t1 IH]; simpl; [reflexivity|].
  destruct x as [[]| |]; simpl; rewrite ?IH; reflexivity.
Qed.

(** C3: whatever the environment does and in whatever order (operations
    settling, connection events, the timer, changes of
    [creds.registered]), at most one response is written to [res], and
    [res.headersSent] tells exactly whether it has been.  The two
    callbacks that can run after a response look at [res.headersSent]
    first, in whatever state they are entered: the timer callback
    (line 150) writes its 408 exactly when nothing was sent, and the
    catch of the handler (line 158) writes its 500 exactly when nothing
    was sent. *)
Theorem at_most_one_response (cwd : string) (query_number : option string)
    (fs0 : gmap string (gmap string string)) (es : list event) :
  let w := world_of (run es (start cwd query_number fs0)) in
  (length (responses (trace w)) ≤ 1)%nat ∧
  length (responses (trace w)) = (if headersSent w then 1 else 0)%nat ∧
  (∀ (s : system) (dir : string) (r : reply),
     exit_code (world_of s) = None →
     timer (world_of s) = Some dir →
     registered (world_of s) = false →
     let s' := run (timer_fires :: map (settles (length (pending s))) [r]) s in
     responses (trace (world_of s')) =
       (responses (trace (world_of s)) ++
        if headersSent (world_of s) then []
        else [(408%Z, error_body "Session initialization timed out")])%list ∧
     headersSent (world_of s') = true) ∧
  (∀ (w0 : world) (number : string) (r0 : reply) (m : string),
     exit_code w0 = None →
     number ≠ "" →
     let s' := run (map (settles 0) [r0; rejected m])
                 (spawn (handler cwd (Some number)) w0 []) in
     responses (trace (world_of s')) =
       (responses (trace w0) ++
        if headersSent w0 then []
        else [(500%Z, error_body "Failed to initialize session")])%list ∧
     headersSent (world_of s') = true).
Proof.
  split; [|split; [|split]].
  - destruct (run_disciplined es _ (start_disciplined cwd query_number fs0))
      as [C _].
    unfold counted in C. rewrite C. destruct (headersSent _); lia.
  - destruct (run_disciplined es _ (start_disciplined cwd query_number fs0))
      as [C _].
    exact C.
  - intros s dir r E T R s'. subst s'. rewrite run_cons.
    replace (step timer_fires s)
      with (spawn (timeout_callback dir) (with_timer None (world_of s))
              (pending s))
      by (unfold step; rewrite E, T; reflexivity).
    rewrite run_alone by exact E.
    unfold timeout_callback.
    destruct (headersSent (world_of s)) eqn:H, r; cbn;
      rewrite ?R, ?H; cbn; rewrite ?H; cbn;
      rewrite ?responses_app; simpl; rewrite ?app_nil_r;
      split; solve [reflexivity | exact H].
  - intros w0 number r0 m E N s'. subst s'.
    pose proof (run_alone [r0; rejected m] (handler cwd (Some number)) w0 [] E)
      as X.
    simpl length in X. rewrite X. clear X.
    destruct number as [|c number]; [congruence|].
    destruct (headersSent w0) eqn:H, r0;
      cbn -[path_join String.append]; rewrite ?H;
      cbn -[path_join String.append];
      rewrite ?responses_app; simpl; rewrite ?app_nil_r;
      split; solve [reflexivity | exact H].
Qed.

(** C3 at concrete states: a timer that fires with nothing sent, and
    an initialisation that fails after a response. *)
Lemma at_most_one_response_witness :
  let s := step (library_sets_registered false) listening_request in
  let s1 := run (timer_fires :: map (settles (length (pending s)))
                                 [resolved undefined]) s in
  let w0 := perform (respond 200 (error_body "sent")) (initial_world ∅) in
  let s2 := run (map (settles 0) [resolved undefined; rejected "EACCES"])
              (spawn (handler "/app" (Some "0771234567")) w0 []) in
  responses (trace (world_of s1)) =
    [(408%Z, error_body "Session initialization timed out")] ∧
  responses (trace (world_of s2)) = [(200%Z, error_body "sent")].
Proof.
  intros s s1 w0 s2.
  destruct (at_most_one_response "/app" (Some "0771234567") ∅ [])
    as (_ & _ & G1 & G2).
  destruct (G1 s "/app/session_0771234567" (resolved undefined)
              eq_refl eq_refl eq_refl) as (T1 & _).
  destruct (G2 w0 "0771234567" (resolved undefined) "EACCES"
              eq_refl ltac:(discriminate)) as (T2 & _).
  split.
  - etransitivity; [exact T1|]. reflexivity.
  - etransitivity; [exact T2|]. reflexivity.
Defined.

End LifeCycle.

(** ** More on the phone-number normalisation *)

Section PhoneMore.

Import Phone.

Lemma replace_app (a b : string) :
  replace_non_digit_plus (a ++ b)
  = replace_non_digit_plus a ++ replace_non_digit_plus b.
Proof.
  induction a as [|c a IH]; [reflexivity|].
  change (String c a ++ b) with (String c (a ++ b)). simpl.
  destruct (is_digit c || is_plus c); rewrite IH; reflexivity.
Qed.

Lemma all_digits_alphabet (s : string) :
  all_digits s = true → digits_or_plus s = true.
Proof.
  induction s as [|c s IH]; simpl; [tauto|].
  intros [D H]%andb_true_iff. rewrite D, (IH H). reflexivity.
Qed.

Lemma all_digits_head (s : string) :
  all_digits s = true → startsWith_plus s = false.
Proof.
  destruct s as [|c s]; simpl; [tauto|].
  intros [D _]%andb_true_iff. apply is_digit_not_plus, D.
Qed.

Lemma no_plus_replace_head (s : string) :
  no_plus s = true → startsWith_plus (replace_non_digit_plus s) = false.
Proof.
  induction s as [|c s IH]; simpl; [tauto|].
  intros [P H]%andb_true_iff. apply negb_true_iff in P. rewrite P, orb_false_r.
  destruct (is_digit c); simpl; [exact P|exact (IH H)].
Qed.

Lemma digits_of_replace (s : string) :
  digits_of (replace_non_digit_plus s) = digits_of s.
Proof.
  induction s as [|c s IH]; simpl; [reflexivity|].
  destruct (is_digit c) eqn:D; simpl; [rewrite D, IH; reflexivity|].
  destruct (is_plus c); simpl; [rewrite D|]; exact IH.
Qed.

Lemma digits_of_strip (s : string) :
  digits_of (if startsWith_plus s then substring1 s else s) = digits_of s.
Proof.
  destruct s as [|c s]; simpl; [reflexivity|].
  destruct (is_plus c) eqn:P; [|reflexivity].
  simpl. rewrite (is_plus_not_digit c P). reflexivity.
Qed.

(** X1: on an input of digits only, [formatPhoneNumber] returns the
    input when it starts with a non-zero digit followed by a digit, and
    the input with "62" in front otherwise; a leading zero is kept
    behind the "62". *)
Theorem formatPhoneNumber_on_digits (num : string) :
  all_digits num = true →
  formatPhoneNumber num =
    if country_code_form num then num else "62" ++ num.
Proof.
  intros D. rewrite formatPhoneNumber_unfold.
  rewrite (replace_fixed num (all_digits_alphabet num D)).
  rewrite (all_digits_head num D).
  unfold with_country_code, country_code_form.
  destruct (match_country_code num); reflexivity.
Qed.

Lemma formatPhoneNumber_on_digits_witness :
  formatPhoneNumber "0812345" = "620812345" ∧
  formatPhoneNumber "44771234" = "44771234".
Proof.
  split.
  - exact (formatPhoneNumber_on_digits "0812345" eq_refl).
  - exact (formatPhoneNumber_on_digits "44771234" eq_refl).
Defined.

(** X2: a character that is neither a digit nor a plus sign (a space, a
    dash, a parenthesis, a letter) changes nothing, wherever it stands
    in the input. *)
Theorem formatPhoneNumber_ignores_separators (a b : string) (c : ascii) :
  is_digit c = false → is_plus c = false →
  formatPhoneNumber (a ++ String c b) = formatPhoneNumber (a ++ b).
Proof.
  intros D P. rewrite !formatPhoneNumber_unfold, !replace_app.
  simpl. rewrite D, P. reflexivity.
Qed.

Lemma formatPhoneNumber_ignores_separators_witness :
  formatPhoneNumber ("+62 812" ++ String "-" "3456")
  = formatPhoneNumber ("+62 812" ++ "3456").
Proof.
  exact (formatPhoneNumber_ignores_separators "+62 812" "3456" "-"
           eq_refl eq_refl).
Defined.

(** X3: the digits of the result are the digits of the input, in the
    same order, with at most "62" put in front: no digit is lost, moved
    or repeated. *)
Theorem formatPhoneNumber_keeps_digits (num : string) :
  digits_of (formatPhoneNumber num) = digits_of num ∨
  digits_of (formatPhoneNumber num) = "62" ++ digits_of num.
Proof.
  rewrite formatPhoneNumber_unfold. unfold with_country_code.
  destruct (match_country_code _); [left|right; rewrite !prepend_62; simpl];
    rewrite digits_of_strip, digits_of_replace; reflexivity.
Qed.

(** X4: one plus sign in front of an input without plus signs changes
    nothing: [+N] and [N] are normalised alike. *)
Theorem formatPhoneNumber_leading_plus (num : string) :
  no_plus num = true →
  formatPhoneNumber (String "+" num) = formatPhoneNumber num.
Proof.
  intros H. rewrite !formatPhoneNumber_unfold. simpl.
  rewrite (no_plus_replace_head num H). reflexivity.
Qed.

Lemma formatPhoneNumber_leading_plus_witness :
  formatPhoneNumber "+62 812" = formatPhoneNumber "62 812".
Proof. exact (formatPhoneNumber_leading_plus "62 812" eq_refl). Defined.

End PhoneMore.

(** ** Uncaught exceptions *)

Section ProcessFacts.

Import Process.

Lemma prefix_app (e s : string) :
  String.prefix e s = true ↔ ∃ post : string, s = e ++ post.
Proof.
  revert s. induction e as [|c e IH]; intros s.
  - split; [intros _; exists s; reflexivity|intros _; destruct s; reflexivity].
  - destruct s as [|d s]; cbn.
    + split; [discriminate|]. intros [post H]. discriminate.
    + destruct (ascii_dec c d) as [->|N].
      * rewrite IH. split; intros [post H]; exists post.
        -- rewrite H. reflexivity.
        -- change (String d e ++ post) with (String d (e ++ post)) in H.
           congruence.
      * split; [discriminate|]. intros [post H].
        change (String c e ++ post) with (String c (e ++ post)) in H.
        congruence.
Qed.

(** [includes] is the substring relation. *)
Lemma includes_app (s e : string) :
  includes s e = true ↔ ∃ pre post : string, s = pre ++ e ++ post.
Proof.
  induction s as [|c s IH].
  - change (includes "" e) with (String.prefix e "" || false).
    rewrite orb_false_r, prefix_app. split.
    + intros [post H]. exists "", post. exact H.
    + intros (pre & post & H). destruct pre as [|d pre]; [|discriminate].
      exists post. exact H.
  - change (includes (String c s) e)
      with (String.prefix e (String c s) || includes s e).
    rewrite orb_true_iff, prefix_app, IH. split.
    + intros [[post H]|(pre & post & H)].
      * exists "", post. exact H.
      * exists (String c pre), post. rewrite H. reflexivity.
    + intros (pre & post & H). destruct pre as [|d pre].
      * left. exists post. exact H.
      * right. exists pre, post.
        change (String d pre ++ e ++ post)
          with (String d (pre ++ e ++ post)) in H.
        congruence.
Qed.

(** X5: an uncaught exception leaves the process running exactly when
    its message contains one of the seven phrases of [ignoreErrors],
    anywhere and in the same letter case; any other exception is logged
    as fatal and ends the process with code 1. *)
Theorem uncaughtException_spared (message : string) :
  (uncaughtException message = [] ↔
   ∃ e pre post : string, In e ignoreErrors ∧ message = pre ++ e ++ post) ∧
  (uncaughtException message = [] ∨
   uncaughtException message =
     [logger_fatal ("Uncaught Exception: " ++ message); process_exit 1]).
Proof.
  unfold uncaughtException.
  destruct (existsb (fun e => includes message e) ignoreErrors) eqn:E; simpl.
  - split; [|left; reflexivity]. split; [intros _|reflexivity].
    apply existsb_exists in E. destruct E as (e & I & H).
    apply includes_app in H. destruct H as (pre & post & H).
    exists e, pre, post. split; assumption.
  - split; [|right; reflexivity]. split; [discriminate|].
    intros (e & pre & post & I & H). exfalso.
    assert (X : existsb (fun e => includes message e) ignoreErrors = true).
    { apply existsb_exists. exists e. split; [exact I|].
      apply includes_app. exists pre, post. exact H. }
    congruence.
Qed.

End ProcessFacts.

(** ** The other paths of the handler and of the listener *)

Section OtherPaths.

Import Phone Pair.

(** X6: without a number (no [number] parameter, or an empty one) the
    handler answers 400 "Phone number is required" and does nothing
    else: the store is untouched, no socket is made, and no later event
    changes that. *)
Theorem missing_number_rejected (cwd : string) (query_number : option string)
    (fs0 : gmap string (gmap string string)) (es : list event) :
  falsy query_number = true →
  let s := run es (start cwd query_number fs0) in
  trace (world_of s) =
    [did (respond 400 (error_body "Phone number is required"))] ∧
  fs (world_of s) = fs0 ∧
  pending s = [] ∧
  exit_code (world_of s) = None.
Proof.
  intros F s.
  assert (I : idle (start cwd query_number fs0) ∧
              world_of (start cwd query_number fs0) =
              perform (respond 400 (error_body "Phone number is required"))
                (initial_world fs0)).
  { destruct query_number as [[|c n]|]; try discriminate; repeat split. }
  destruct I as [I W].
  destruct (run_idle es _ I) as ((P & _) & T & S & _ & X).
  fold s in P, T, S, X. rewrite T, S, X, W. repeat split. exact P.
Qed.

Lemma missing_number_rejected_witness :
  let s := run [timer_fires; emit_connection_update open_update]
             (start "/app" (Some "") ∅) in
  trace (world_of s) =
    [did (respond 400 (error_body "Phone number is required"))] ∧
  fs (world_of s) = ∅.
Proof.
  intros s.
  destruct (missing_number_rejected "/app" (Some "") ∅
              [timer_fires; emit_connection_update open_update] eq_refl)
    as (T & F & _).
  split; assumption.
Defined.

(** X7: when [useMultiFileAuthState] fails, the error is logged and the
    handler answers 500 "Failed to initialize session" (lines 156-160);
    no socket is made, nothing is attached, and the request is over. *)
Theorem initialisation_failure (cwd number : string)
    (fs0 : gmap string (gmap string string)) (r0 : reply) (m : string) :
  number ≠ "" →
  let dir := path_join cwd ("session_" ++ number) in
  let s := run (map (settles 0) [r0; rejected m])
             (start cwd (Some number) fs0) in
  trace (world_of s) =
    (called (fs_rm dir) :: cleanup_log r0 ++
     [called (useMultiFileAuthState dir);
      did (logger_error ("Initialization error: " ++ m));
      did (respond 500 (error_body "Failed to initialize session"))])%list ∧
  idle s ∧
  ∀ es : list event,
    idle (run es s) ∧
    same_but_registered (world_of s) (world_of (run es s)).
Proof.
  intros N dir s.
  assert (I : idle s ∧ trace (world_of s) =
    (called (fs_rm dir) :: cleanup_log r0 ++
     [called (useMultiFileAuthState dir);
      did (logger_error ("Initialization error: " ++ m));
      did (respond 500 (error_body "Failed to initialize session"))])%list).
  { unfold s. rewrite run_start.
    destruct number as [|c number]; [congruence|].
    destruct r0; cbn -[path_join String.append]; repeat split. }
  destruct I as [I T]. split; [exact T|]. split; [exact I|].
  intros es. apply run_idle, I.
Qed.

Lemma initialisation_failure_witness :
  let s := run (map (settles 0) [resolved undefined; rejected "EACCES"])
             (start "/app" (Some "0771234567") ∅) in
  responses (trace (world_of s)) =
    [(500%Z, error_body "Failed to initialize session")] ∧
  idle s.
Proof.
  intros s.
  destruct (initialisation_failure "/app" "0771234567" ∅
              (resolved undefined) "EACCES" ltac:(discriminate))
    as (T & I & _).
  fold s in T, I. split; [rewrite T; reflexivity|exact I].
Defined.

(** X13: an update whose [connection] is neither "open" nor "close"
    (a QR code, "connecting", no [connection] field) changes nothing. *)
Theorem other_updates_ignored (s : system) (u : update) :
  connection u ≠ Some "open" →
  connection u ≠ Some "close" →
  step (emit_connection_update u) s = s.
Proof.
  intros O C. unfold step.
  destruct (exit_code (world_of s)); [reflexivity|].
  destruct (connection_listener (world_of s)) as [[dir number]|];
    [|reflexivity].
  unfold connection_update.
  rewrite (decide_False (P := connection u = Some "open")) by exact O.
  rewrite (decide_False (P := connection u = Some "close")) by exact C.
  destruct s. reflexivity.
Qed.

Lemma other_updates_ignored_witness :
  step (emit_connection_update
          {| connection := Some "connecting"; statusCode := None |})
    listening_request
  = listening_request.
Proof.
  apply other_updates_ignored; discriminate.
Defined.

Lemma pairing_code_returned_witness :
  let s := run (map (settles 0)
                  [resolved undefined; resolved (auth_state false);
                   resolved undefined; resolved (str "ABCD1234")])
             (start "/app" (Some "0771234567") ∅) in
  responses (trace (world_of s)) =
    [(200%Z, pairing_body "ABCD1234"
               "Please enter this pairing code in your WhatsApp app")] ∧
  idle s.
Proof.
  intros s.
  destruct (pairing_code_returned "/app" "0771234567" ∅
              (resolved undefined) (auth_state false) undefined "ABCD1234"
              ltac:(discriminate) eq_refl) as (R & _ & I & _).
  split; [exact R|exact I].
Defined.

Lemma registered_initialisation_witness :
  connection_listener (world_of listening_request)
    = Some ("/app/session_0771234567", "0771234567") ∧
  timer (world_of listening_request) = Some "/app/session_0771234567" ∧
  headersSent (world_of listening_request) = false.
Proof.
  destruct (registered_initialisation "/app" "0771234567" ∅
              (resolved undefined) (auth_state true)
              ltac:(discriminate) eq_refl) as (_ & _ & L & T & H & _).
  split; [exact L|]. split; [exact T|exact H].
Defined.

Lemma close_unauthorized_witness :
  let s' := run (emit_connection_update (close_update 401)
                 :: map (settles 0) [resolved undefined])
              listening_request in
  fs (world_of s') !! "/app/session_0771234567" = None ∧ pending s' = [].
Proof.
  intros s'.
  destruct (close_unauthorized listening_request "/app/session_0771234567"
              "0771234567" (close_update 401) (resolved undefined)
              eq_refl eq_refl eq_refl eq_refl) as (_ & P & F).
  split; [exact (F eq_refl)|exact P].
Defined.

Lemma close_other_witness :
  let s' := run (emit_connection_update (close_update 428)
                 :: map (settles 0) [resolved undefined])
              listening_request in
  fs (world_of s') = fs (world_of listening_request) ∧ pending s' = [].
Proof.
  intros s'.
  destruct (close_other listening_request "/app/session_0771234567"
              "0771234567" (close_update 428) undefined
              eq_refl eq_refl eq_refl ltac:(discriminate))
    as (_ & P & F & _).
  split; [exact F|exact P].
Defined.

Lemma timer_fires_armed_witness :
  let s := step (library_sets_registered false) listening_request in
  let s' := run (timer_fires :: map (settles 0) [resolved undefined]) s in
  headersSent (world_of s') = true ∧
  fs (world_of s') !! "/app/session_0771234567" = None ∧
  timer (world_of s') = None.
Proof.
  intros s s'.
  destruct (timer_fires_armed s "/app/session_0771234567"
              (resolved undefined) eq_refl eq_refl) as (_ & H & T).
  destruct (H eq_refl) as (_ & S & F).
  split; [exact S|]. split; [exact (F eq_refl)|exact T].
Defined.

Lemma step_emit_creds_update (w : world) (pool : list task)
    (dir creds : string) :
  exit_code w = None →
  creds_listener w = Some dir →
  step (emit_creds_update creds) {| world_of := w; pending := pool |}
  = {| world_of := saveCreds dir creds w; pending := pool |}.
Proof. intros E L. unfold step. simpl. rewrite E, L. reflexivity. Qed.

(** X14: the credentials sent are those on disk after the 5-second
    wait, not those of the moment the connection opened: when
    [creds.update] saves new credentials during the wait, the document
    that is sent holds them. *)
Theorem transfer_sends_saved_creds (s : system) (dir number creds : string)
    (u : update) (v1 v2 : value) :
  exit_code (world_of s) = None →
  connection_listener (world_of s) = Some (dir, number) →
  creds_listener (world_of s) = Some dir →
  is_Some (fs (world_of s) !! dir) →
  connection u = Some "open" →
  let n := length (pending s) in
  let s' := run [emit_connection_update u;
                 emit_creds_update creds;
                 settles n (resolved v1);
                 settles n (resolved v2)] s in
  trace (world_of s') =
    (trace (world_of s)
       ++ [did (logger_info "Connection established");
           called (delay 5000);
           called (fs_readFile dir "creds.json");
           called (sendMessage
                     (jidNormalizedUser (number ++ "@s.whatsapp.net"))
                     (document creds "application/json" "creds.json"))])%list.
Proof.
  intros E L C [files F] O n s'. subst n s'.
  rewrite run_cons, (step_emit_connection_update s dir number u E L).
  rewrite (connection_update_open dir number u O).
  unfold transfer, spawn. cbn -[run].
  rewrite run_cons, (step_emit_creds_update _ _ dir creds) by assumption.
  unfold saveCreds. cbn -[run]. rewrite F.
  rewrite run_cons.
  erewrite step_settles;
    [|exact E|apply list_lookup_middle; reflexivity].
  cbn -[run]. rewrite delete_middle_last. unfold spawn. cbn -[run].
  rewrite run_cons.
  erewrite step_settles;
    [|exact E|apply list_lookup_middle; reflexivity].
  cbn. rewrite lookup_insert_eq. cbn. rewrite lookup_insert_eq. cbn.
  rewrite <- ?app_assoc. reflexivity.
Qed.

Lemma transfer_sends_saved_creds_witness :
  let s' := run [emit_connection_update open_update;
                 emit_creds_update "{new}";
                 settles 0 (resolved undefined);
                 settles 0 (resolved undefined)] listening_request in
  In (called (sendMessage (jidNormalizedUser "0771234567@s.whatsapp.net")
                (document "{new}" "application/json" "creds.json")))
    (trace (world_of s')).
Proof.
  intros s'.
  pose proof (transfer_sends_saved_creds listening_request
                "/app/session_0771234567" "0771234567" "{new}" open_update
                undefined undefined eq_refl eq_refl eq_refl
                (ex_intro _ ∅ eq_refl) eq_refl) as T.
  cbv zeta in T.
  match type of T with _ = ?r => change (trace (world_of s') = r) in T end.
  rewrite T. apply in_or_app. right.
  do 3 right. left. reflexivity.
Defined.

End OtherPaths.

(** ** The two phases of a request *)

Section Phases.

Import Pair.

Lemma existsb_snoc {A : Type} (f : A → bool) (l : list A) (x : A) :
  existsb f (l ++ [x]) = existsb f l || f x.
Proof. rewrite existsb_app. simpl. rewrite orb_false_r. reflexivity. Qed.

Lemma existsb_grows {A : Type} (f : A → bool) (l t : list A) :
  existsb f l = true → existsb f (l ++ t) = true.
Proof. intros H. rewrite existsb_app, H. reflexivity. Qed.

Lemma trace_perform (a : action) (w : world) :
  trace (perform a w) = (trace w ++ [did a])%list.
Proof. destruct a; reflexivity. Qed.

Lemma extends_refl (w : world) : extends w w.
Proof. exists []. symmetry. apply app_nil_r. Qed.

Lemma extends_trans (w1 w2 w3 : world) :
  extends w1 w2 → extends w2 w3 → extends w1 w3.
Proof.
  intros [t H] [t' H']. exists (t ++ t')%list.
  rewrite H', H, app_assoc. reflexivity.
Qed.

Lemma extends_perform (a : action) (w : world) : extends w (perform a w).
Proof. exists [did a]. apply trace_perform. Qed.

Lemma extends_same (w w' : world) : trace w' = trace w → extends w w'.
Proof. intros H. exists []. rewrite H, app_nil_r. reflexivity. Qed.

Lemma flags_hold_extends (ann wrn : bool) (w w' : world) :
  extends w w' → flags_hold ann wrn w → flags_hold ann wrn w'.
Proof.
  intros [t H] [A W]. unfold flags_hold, announced, warned. rewrite H.
  split; intros X; apply existsb_grows; auto.
Qed.

Lemma callbacks_extends (w w' : world) (pool : list task) :
  extends w w' → callbacks w pool → callbacks w' pool.
Proof.
  intros E P. unfold callbacks in *. eapply Forall_impl; [exact P|].
  intros t H r. simpl in H.
  destruct (H r) as (ann & wrn & F & C).
  exists ann, wrn. split; [exact (flags_hold_extends _ _ _ _ E F)|exact C].
Qed.

(** One more entry that is neither a pairing-code request nor a
    response keeps [heard]. *)
Lemma heard_step (e : entry) (w w' : world) :
  trace w' = (trace w ++ [e])%list →
  exit_code w' = exit_code w →
  match e with
  | called op => is_request op = false
  | did a => is_respond a = false
  | exited _ => False
  end →
  heard w → heard w'.
Proof.
  intros T X S (A & E & R). unfold heard, asked, announced, warned.
  rewrite T, X, !existsb_snoc, responses_snoc. split; [|split].
  - unfold asked in A. rewrite A. destruct e as [a|op|c]; tauto.
  - intros c H. destruct (E c H) as [C N]. split; [exact C|].
    unfold announced in N. rewrite N. reflexivity.
  - replace (match e with did (respond status b) => [(status, b)] | _ => [] end)
      with (@nil (Z * body)) by (destruct e as [[]| |]; try reflexivity; discriminate).
    rewrite app_nil_r. intros resp H. destruct (R resp H) as [Q W].
    split; [exact Q|]. unfold warned in W. rewrite W. reflexivity.
Qed.

Lemma heard_frame (w w' : world) :
  trace w' = trace w → exit_code w' = exit_code w → heard w → heard w'.
Proof. unfold heard. intros -> ->. tauto. Qed.

Lemma heard_timed_out (w : world) :
  warned (trace w) = true → heard w → heard (perform timed_out w).
Proof.
  intros W (A & E & R). unfold heard, asked, announced, warned.
  rewrite trace_perform, exit_code_perform, !existsb_snoc, responses_snoc.
  unfold asked in A. unfold warned in W. rewrite A, W. split; [reflexivity|].
  split.
  - intros c H. destruct (E c H) as [C N]. split; [exact C|].
    unfold announced in N. rewrite N. reflexivity.
  - intros resp [H|H]%in_app_or; [destruct (R resp H); tauto|].
    destruct H as [<-|[]]. split; reflexivity.
Qed.

Lemma heard_exit (c : Z) (w : world) :
  announced (trace w) = true → (c = 0 ∨ c = 1)%Z → heard w →
  heard (log (exited c) (with_exit_code (Some c) w)).
Proof.
  intros N C (A & E & R). unfold heard, asked, announced, warned. simpl.
  rewrite !existsb_snoc, responses_snoc, app_nil_r.
  unfold asked in A. unfold announced in N. rewrite A, N.
  split; [reflexivity|]. split.
  - intros c' [= <-]. split; [exact C|reflexivity].
  - intros resp H. destruct (R resp H) as [Q W]. split; [exact Q|].
    unfold warned in W. rewrite W. reflexivity.
Qed.

Lemma flags_hold_perform (ann wrn : bool) (a : action) (w : world) :
  flags_hold ann wrn w →
  flags_hold (ann || is_announce a) (wrn || is_warning a) (perform a w).
Proof.
  intros [A W]. unfold flags_hold, announced, warned.
  rewrite trace_perform, !existsb_snoc. split; intros H.
  - apply orb_true_iff in H. destruct H as [H|H].
    + unfold announced in A. rewrite (A H). reflexivity.
    + rewrite H. apply orb_true_r.
  - apply orb_true_iff in H. destruct H as [H|H].
    + unfold warned in W. rewrite (W H). reflexivity.
    + rewrite H. apply orb_true_r.
Qed.

(** A turn of a callback. *)
Lemma exec_callback (p : prog unit) :
  ∀ (ann wrn : bool) (w : world),
    callback ann wrn p → flags_hold ann wrn w → heard w →
    heard (exec p w).1 ∧ extends w (exec p w).1 ∧
    match (exec p w).2 with
    | suspended _ k =>
        ∀ r : reply, ∃ ann' wrn' : bool,
          flags_hold ann' wrn' (exec p w).1 ∧ callback ann' wrn' (k r)
    | _ => True
    end.
Proof.
  induction p as [| |c|a k IH|c k IH|op k IH]; intros ann wrn w C F H; simpl.
  - split; [exact H|]. split; [apply extends_refl|exact I].
  - split; [exact H|]. split; [apply extends_refl|exact I].
  - destruct C as [-> C]. split; [|split; [|exact I]].
    + apply heard_exit; [apply F; reflexivity|exact C|exact H].
    + exists [exited c]. reflexivity.
  - destruct C as (A & R & K).
    assert (H' : heard (perform a w)).
    { destruct (is_respond a) eqn:Q.
      - destruct (R eq_refl) as [-> ->]. apply heard_timed_out; [|exact H].
        apply F. reflexivity.
      - apply (heard_step (did a) w); [apply trace_perform
          |apply exit_code_perform|exact Q|exact H]. }
    destruct (IH _ _ (perform a w) K (flags_hold_perform _ _ a w F) H')
      as (X & E & S).
    split; [exact X|]. split; [|exact S].
    exact (extends_trans _ _ _ (extends_perform a w) E).
  - apply (IH _ ann wrn w); auto.
  - destruct C as [Q K]. split; [|split].
    + apply (heard_step (called op) w); [reflexivity|reflexivity|exact Q|exact H].
    + exists [called op]. reflexivity.
    + intros r. exists ann, wrn. split; [|apply K].
      apply (flags_hold_extends _ _ w); [exists [called op]; reflexivity|exact F].
Qed.

Lemma unattached_perform (a : action) (w : world) :
  attaches a = false → unattached w → unattached (perform a w).
Proof.
  intros A (C & L & T & X & N). unfold unattached, attached.
  rewrite trace_perform, existsb_snoc, exit_code_perform.
  unfold attached in N. rewrite N, A.
  destruct a; try discriminate; repeat split; assumption.
Qed.

Lemma exec_ending_plain (p : prog unit) :
  ∀ w : world,
    ending false p → unattached w →
    unattached (exec p w).1 ∧
    match (exec p w).2 with
    | returned _ | threw _ => True
    | _ => False
    end.
Proof.
  induction p as [| |c|a k IH|c k IH|op k IH]; intros w E U; simpl;
    try solve [split; auto]; try contradiction.
  - destruct E as (_ & A & K). apply IH; [exact K|].
    apply unattached_perform; [|exact U].
    destruct (attaches a); [discriminate (A eq_refl)|reflexivity].
  - apply IH; auto.
Qed.

Lemma exec_ending_attached (p : prog unit) :
  ∀ w : world,
    ending true p → heard w →
    heard (exec p w).1 ∧
    match (exec p w).2 with
    | returned _ | threw _ => True
    | _ => False
    end.
Proof.
  induction p as [| |c|a k IH|c k IH|op k IH]; intros w E H; simpl;
    try solve [split; auto]; try contradiction.
  - destruct E as (R & _ & K). apply IH; [exact K|].
    apply (heard_step (did a) w); [apply trace_perform
      |apply exit_code_perform|exact R|exact H].
  - apply IH; auto.
Qed.

(** A turn of the handler before it has responded or attached. *)
Lemma exec_initial (p : prog unit) :
  ∀ (has_asked : bool) (w : world),
    initial has_asked p → unattached w →
    (has_asked = false → asked (trace w) = false) →
    responses (trace w) = [] →
    (unattached (exec p w).1 ∧
     match (exec p w).2 with
     | suspended _ k =>
         ∃ has_asked' : bool,
           (has_asked' = false → asked (trace (exec p w).1) = false) ∧
           responses (trace (exec p w).1) = [] ∧
           ∀ r : reply, initial has_asked' (k r)
     | quit _ => False
     | _ => True
     end) ∨
    (heard (exec p w).1 ∧
     match (exec p w).2 with
     | returned _ | threw _ => True
     | _ => False
     end).
Proof.
  induction p as [| |c|a k IH|c k IH|op k IH]; intros b w N U A R; simpl.
  - left. split; auto.
  - left. split; auto.
  - contradiction.
  - simpl in N. destruct (is_respond a) eqn:Q.
    + left. destruct (exec_ending_plain k (perform a w) N) as [U' S].
      { apply unattached_perform; [|exact U].
        destruct a; try discriminate; reflexivity. }
      split; [exact U'|]. destruct (exec k (perform a w)).2; tauto.
    + destruct (attaches a) eqn:T.
      * right. destruct N as [-> N]. apply exec_ending_attached; [exact N|].
        destruct U as (_ & _ & _ & X & _).
        unfold heard, asked. rewrite trace_perform, exit_code_perform, X.
        rewrite existsb_snoc, responses_snoc, R.
        specialize (A eq_refl). unfold asked in A. rewrite A.
        split; [reflexivity|]. split; [discriminate|].
        destruct a; try discriminate; intros resp [].
      * apply (IH b (perform a w)); [exact N
          |apply unattached_perform; assumption| |].
        -- intros E. unfold asked. rewrite trace_perform, existsb_snoc.
           specialize (A E). unfold asked in A. rewrite A. reflexivity.
        -- rewrite trace_perform, responses_snoc, R.
           destruct a; try discriminate; reflexivity.
  - apply (IH _ b w); auto.
  - left. split.
    + destruct U as (C & L & T & X & Y). unfold unattached, attached.
      simpl. rewrite existsb_snoc. unfold attached in Y. rewrite Y.
      repeat split; assumption.
    + exists (b || is_request op). split; [|split].
      * intros E. apply orb_false_iff in E. destruct E as [-> E].
        unfold asked. simpl. rewrite existsb_snoc, E.
        specialize (A eq_refl). unfold asked in A. rewrite A. reflexivity.
      * simpl. rewrite responses_snoc, R. reflexivity.
      * exact N.
Qed.

Ltac phase_shape :=
  repeat (cbn; first [ exact I | reflexivity
                     | (intros H; discriminate H)
                     | split | intros [?|?] | intros [] | intros ?
                     | (left; reflexivity) | (right; reflexivity) ]).

Lemma handler_initial (cwd : string) (query_number : option string) :
  initial false (handler cwd query_number).
Proof.
  destruct query_number as [[|c number]|]; [phase_shape| |phase_shape].
  unfold handler. cbn. intros [v|m]; phase_shape.
Qed.

Lemma timeout_callback_callback (dir : string) :
  callback false false (timeout_callback dir).
Proof. intros []; phase_shape. Qed.

Lemma connection_update_callback (dir number : string) (u : update) :
  callback false false (connection_update dir number u).
Proof.
  unfold connection_update, disconnected.
  destruct (decide (connection u = Some "open")),
           (decide (connection u = Some "close")),
           (decide (statusCode u ≠ Some 401%Z)); phase_shape.
Qed.

Lemma heard_unhandled (m : string) (w : world) :
  heard w → heard (perform (unhandledRejection m) w).
Proof.
  apply (heard_step (did (unhandledRejection m)) w);
    [apply trace_perform|apply exit_code_perform|reflexivity].
Qed.

Lemma spawn_callback (p : prog unit) (w : world) (pool : list task) :
  callback false false p → heard w → callbacks w pool →
  listening (spawn p w pool).
Proof.
  intros C H P.
  destruct (exec_callback p false false w C) as (H' & E & K);
    [split; discriminate|exact H|].
  unfold spawn, park. destruct (exec p w) as [w' [a|m|c|op k]]; simpl in *.
  - split; [exact H'|exact (callbacks_extends _ _ _ E P)].
  - split; [exact (heard_unhandled m w' H')|].
    apply (callbacks_extends w); [|exact P].
    exact (extends_trans _ _ _ E (extends_perform (unhandledRejection m) w')).
  - split; [exact H'|apply Forall_nil_2].
  - split; [exact H'|]. apply Forall_app. split.
    + exact (callbacks_extends _ _ _ E P).
    + apply Forall_singleton. exact K.
Qed.

Lemma spawn_resumed (k : reply → prog unit) (r : reply) (w w0 : world)
    (pool : list task) :
  (∃ ann wrn : bool, flags_hold ann wrn w ∧ callback ann wrn (k r)) →
  heard w → extends w0 w → callbacks w0 pool →
  listening (spawn (k r) w pool).
Proof.
  intros (ann & wrn & F & C) H E0 P.
  destruct (exec_callback (k r) ann wrn w C F H) as (H' & E & K).
  pose proof (extends_trans _ _ _ E0 E) as E1.
  unfold spawn, park. destruct (exec (k r) w) as [w' [a|m|c|op k']]; simpl in *.
  - split; [exact H'|exact (callbacks_extends _ _ _ E1 P)].
  - split; [exact (heard_unhandled m w' H')|].
    apply (callbacks_extends w0); [|exact P].
    exact (extends_trans _ _ _ E1 (extends_perform (unhandledRejection m) w')).
  - split; [exact H'|apply Forall_nil_2].
  - split; [exact H'|]. apply Forall_app. split.
    + exact (callbacks_extends _ _ _ E1 P).
    + apply Forall_singleton. exact K.
Qed.

Lemma spawn_initial (p : prog unit) (has_asked : bool) (w : world) :
  initial has_asked p → unattached w →
  (has_asked = false → asked (trace w) = false) →
  responses (trace w) = [] →
  phased (spawn p w []).
Proof.
  intros N U A R.
  destruct (exec_initial p has_asked w N U A R) as [[U' S]|[H S]];
    unfold spawn, park; destruct (exec p w) as [w' [a|m|c|op k]];
    simpl in *; try contradiction.
  - left. split; [exact U'|left; reflexivity].
  - left. split; [|left; reflexivity].
    exact (unattached_perform (unhandledRejection m) w' eq_refl U').
  - left. split; [exact U'|right].
    destruct S as (b & A' & R' & K). exists op, k, b. repeat split; assumption.
  - right. split; [exact H|apply Forall_nil_2].
  - right. split; [exact (heard_unhandled m w' H)|apply Forall_nil_2].
Qed.

Lemma step_phased (e : event) (s : system) : phased s → phased (step e s).
Proof.
  intros [[U P]|[H C]].
  - pose proof U as (CL & L & T & X & _). unfold step. rewrite X.
    destruct e as [i r|u|creds| |b].
    + destruct P as [P|(op & k & b & P & A & R & K)]; rewrite P.
      * rewrite lookup_nil. left. split; [exact U|left; exact P].
      * destruct i as [|i]; simpl; [|left; split; [exact U|right; eauto 10]].
        destruct (settle_frame op r (world_of s))
          as (ST & _ & SC & SL & STI & SX).
        destruct (settle op r (world_of s)) as [w' r']. simpl in *.
        apply (spawn_initial (k r') b); [apply K| | |].
        -- destruct U as (_ & _ & _ & _ & N). unfold unattached.
           rewrite SC, SL, STI, SX, ST. repeat split; assumption.
        -- rewrite ST. exact A.
        -- rewrite ST. exact R.
    + rewrite L. left. split; assumption.
    + rewrite CL. left. split; assumption.
    + rewrite T. left. split; assumption.
    + left. split; [exact U|exact P].
  - unfold step. destruct (exit_code (world_of s)) eqn:X;
      [right; split; assumption|].
    destruct e as [i r|u|creds| |b].
    + destruct (pending s !! i) as [[op k]|] eqn:Q; [|right; split; assumption].
      destruct (settle_frame op r (world_of s)) as (ST & _ & _ & _ & _ & SX).
      destruct (settle op r (world_of s)) as [w' r']. simpl in *.
      right. apply (spawn_resumed k r' w' (world_of s)).
      * destruct (proj1 (Forall_lookup _ _) C i (op, k) Q r')
          as (ann & wrn & F & K).
        exists ann, wrn. split; [|exact K].
        apply (flags_hold_extends _ _ (world_of s));
          [apply extends_same, ST|exact F].
      * apply (heard_frame (world_of s)); [exact ST|exact SX|exact H].
      * apply extends_same, ST.
      * apply Forall_delete, C.
    + destruct (connection_listener (world_of s)) as [[dir number]|];
        [|right; split; assumption].
      right. apply spawn_callback;
        [apply connection_update_callback|exact H|exact C].
    + destruct (creds_listener (world_of s)) as [dir|];
        [|right; split; assumption].
      right. unfold saveCreds. destruct (fs (world_of s) !! dir).
      * split; [exact H|exact C].
      * split; [apply heard_unhandled, H|].
        apply (callbacks_extends (world_of s)); [apply extends_perform|exact C].
    + destruct (timer (world_of s)) as [dir|]; [|right; split; assumption].
      right. apply spawn_callback;
        [apply timeout_callback_callback|exact H|exact C].
    + right. split; [exact H|exact C].
Qed.

Lemma run_phased (es : list event) :
  ∀ s : system, phased s → phased (run es s).
Proof.
  induction es as [|e es IH]; intros s P; [exact P|].
  rewrite run_cons. apply IH, step_phased, P.
Qed.

Lemma start_phased (cwd : string) (query_number : option string)
    (fs0 : gmap string (gmap string string)) :
  phased (start cwd query_number fs0).
Proof.
  apply (spawn_initial _ false); [apply handler_initial| | |];
    repeat split.
Qed.

Lemma reached_phased (cwd : string) (query_number : option string)
    (fs0 : gmap string (gmap string string)) (es : list event) :
  phased (run es (start cwd query_number fs0)).
Proof. apply run_phased, start_phased. Qed.

Lemma asked_In (t : list entry) (n : string) :
  In (called (requestPairingCode n)) t → asked t = true.
Proof.
  intros H. apply existsb_exists. exists (called (requestPairingCode n)).
  split; [exact H|reflexivity].
Qed.

Lemma attached_In (t : list entry) (d n : string) :
  In (did (on_connection_update d n)) t → attached t = true.
Proof.
  intros H. apply existsb_exists. exists (did (on_connection_update d n)).
  split; [exact H|reflexivity].
Qed.

Lemma announced_In (t : list entry) :
  announced t = true → In (did (logger_info "Connection established")) t.
Proof.
  intros H. apply existsb_exists in H. destruct H as ([[]| |] & I & H);
    try discriminate.
  simpl in H. apply String.eqb_eq in H. subst. exact I.
Qed.

Lemma warned_In (t : list entry) :
  warned t = true →
  In (did (logger_warn "Session initialization timed out")) t.
Proof.
  intros H. apply existsb_exists in H. destruct H as ([[]| |] & I & H);
    try discriminate.
  simpl in H. apply String.eqb_eq in H. subst. exact I.
Qed.

(** X15: whatever the environment does, a request ends the process
    only with code 0 or 1, only after it has logged "Connection
    established", and never when it has asked for a pairing code. *)
Theorem exit_only_after_open (cwd : string) (query_number : option string)
    (fs0 : gmap string (gmap string string)) (es : list event) (c : Z) :
  let w := world_of (run es (start cwd query_number fs0)) in
  exit_code w = Some c →
  (c = 0 ∨ c = 1)%Z ∧
  In (did (logger_info "Connection established")) (trace w) ∧
  ∀ n : string, ¬ In (called (requestPairingCode n)) (trace w).
Proof.
  intros w X. subst w.
  destruct (reached_phased cwd query_number fs0 es)
    as [[(_ & _ & _ & N & _) _]|[(A & E & _) _]]; [congruence|].
  destruct (E c X) as [C Q]. split; [exact C|].
  split; [apply announced_In, Q|].
  intros n H. apply asked_In in H. congruence.
Qed.

(** X16: whatever the environment does, a request that has asked for a
    pairing code has no listener and no timer, at that moment and ever
    after, and it never ends the process: asking for a pairing code and
    attaching the callbacks exclude each other. *)
Theorem pairing_excludes_listening (cwd : string)
    (query_number : option string)
    (fs0 : gmap string (gmap string string)) (es : list event) (n : string) :
  let w := world_of (run es (start cwd query_number fs0)) in
  In (called (requestPairingCode n)) (trace w) →
  creds_listener w = None ∧ connection_listener w = None ∧ timer w = None ∧
  exit_code w = None ∧
  ∀ d m : string, ¬ In (did (on_connection_update d m)) (trace w).
Proof.
  intros w H. subst w. apply asked_In in H.
  destruct (reached_phased cwd query_number fs0 es)
    as [[(C & L & T & X & N) _]|[(A & _) _]]; [|congruence].
  repeat split; try assumption.
  intros d m I. apply attached_In in I. congruence.
Qed.

(** X17: whatever the environment does, a request that has attached its
    connection listener gets no response other than the 408
    "Session initialization timed out", and that one only after the
    time-out warning was logged. *)
Theorem listening_request_answer (cwd : string)
    (query_number : option string)
    (fs0 : gmap string (gmap string string)) (es : list event)
    (d m : string) (resp : Z * body) :
  let w := world_of (run es (start cwd query_number fs0)) in
  In (did (on_connection_update d m)) (trace w) →
  In resp (responses (trace w)) →
  resp = (408%Z, error_body "Session initialization timed out") ∧
  In (did (logger_warn "Session initialization timed out")) (trace w).
Proof.
  intros w H R. subst w. apply attached_In in H.
  destruct (reached_phased cwd query_number fs0 es)
    as [[(_ & _ & _ & _ & N) _]|[(_ & _ & Q) _]]; [congruence|].
  destruct (Q resp R) as [E W]. split; [exact E|apply warned_In, W].
Qed.

Lemma exit_only_after_open_witness :
  let w := world_of
             (run [settles 0 (resolved undefined);
                   settles 0 (resolved (auth_state true));
                   emit_connection_update open_update;
                   settles 0 (rejected "timeout");
                   settles 0 (resolved undefined)]
                (start "/app" (Some "0771234567") ∅)) in
  (1 = 0 ∨ 1 = 1)%Z ∧
  In (did (logger_info "Connection established")) (trace w).
Proof.
  intros w.
  assert (X : exit_code w = Some 1%Z) by (vm_compute; reflexivity).
  destruct (exit_only_after_open "/app" (Some "0771234567") ∅ _ 1%Z X)
    as (C & A & _).
  split; [exact C|exact A].
Defined.

Lemma pairing_excludes_listening_witness :
  let w := world_of
             (run [settles 0 (resolved undefined);
                   settles 0 (resolved (auth_state false));
                   settles 0 (resolved undefined);
                   settles 0 (resolved (str "ABCD1234"))]
                (start "/app" (Some "0771234567") ∅)) in
  connection_listener w = None ∧ timer w = None.
Proof.
  intros w.
  assert (X : In (called (requestPairingCode "620771234567")) (trace w))
    by (vm_compute; do 4 right; left; reflexivity).
  destruct (pairing_excludes_listening "/app" (Some "0771234567") ∅ _
              "620771234567" X) as (_ & L & T & _).
  split; [exact L|exact T].
Defined.

Lemma listening_request_answer_witness :
  let w := world_of
             (run [settles 0 (resolved undefined);
                   settles 0 (resolved (auth_state true));
                   library_sets_registered false;
                   timer_fires;
                   settles 0 (resolved undefined)]
                (start "/app" (Some "0771234567") ∅)) in
  In (did (logger_warn "Session initialization timed out")) (trace w).
Proof.
  intros w.
  assert (X : In (did (on_connection_update "/app/session_0771234567"
                         "0771234567")) (trace w))
    by (vm_compute; do 4 right; left; reflexivity).
  assert (R : In (408%Z, error_body "Session initialization timed out")
                (responses (trace w)))
    by (vm_compute; left; reflexivity).
  exact (proj2 (listening_request_answer "/app" (Some "0771234567") ∅ _
                  _ _ _ X R)).
Defined.

End Phases.

(** ** Whom a request addresses *)

Section Addressing.

Import Phone Pair.

Lemma own_world_perform (dir number : string) (a : action) (w : world) :
  own_action dir number a → own_world dir number w →
  own_world dir number (perform a w).
Proof.
  intros A (O & L & T). unfold own_world. rewrite trace_perform.
  split; [|split].
  - intros op [H|[H|[]]]%in_app_or; [exact (O op H)|discriminate].
  - destruct a; simpl in *; try exact L. intros d n [= <- <-]. exact A.
  - destruct a; simpl in *; try exact T. intros d [= <-]. exact A.
Qed.

Lemma own_world_called (dir number : string) (op : extop) (w : world) :
  own_op dir number op → own_world dir number w →
  own_world dir number (log (called op) w).
Proof.
  intros A (O & L & T). unfold own_world. simpl. split; [|split; assumption].
  intros op' [H|[H|[]]]%in_app_or; [exact (O op' H)|].
  injection H as <-. exact A.
Qed.

Lemma own_world_frame (dir number : string) (w w' : world) :
  trace w' = trace w → connection_listener w' = connection_listener w →
  timer w' = timer w → own_world dir number w → own_world dir number w'.
Proof. unfold own_world. intros -> -> ->. tauto. Qed.

Lemma exec_own (dir number : string) (p : prog unit) :
  ∀ w : world,
    own_code dir number p → own_world dir number w →
    own_world dir number (exec p w).1 ∧
    match (exec p w).2 with
    | suspended _ k => ∀ r : reply, own_code dir number (k r)
    | _ => True
    end.
Proof.
  induction p as [| |c|a k IH|c k IH|op k IH]; intros w C W; simpl.
  - auto.
  - auto.
  - split; [|exact I]. destruct W as (O & L & T). unfold own_world. simpl.
    split; [|split; assumption].
    intros op [H|[H|[]]]%in_app_or; [exact (O op H)|discriminate].
  - destruct C as [A K]. apply IH; [exact K|].
    apply own_world_perform; assumption.
  - apply IH; auto.
  - destruct C as [A K]. split; [|exact K].
    apply own_world_called; assumption.
Qed.

Lemma spawn_own (dir number : string) (p : prog unit) (w : world)
    (pool : list task) :
  own_code dir number p → own_world dir number w →
  Forall (fun t : task => ∀ r : reply, own_code dir number (t.2 r)) pool →
  own_system dir number (spawn p w pool).
Proof.
  intros C W P. destruct (exec_own dir number p w C W) as [W' K].
  unfold spawn, park. destruct (exec p w) as [w' [a|m|c|op k]]; simpl in *.
  - split; assumption.
  - split; [|exact P].
    exact (own_world_perform dir number (unhandledRejection m) w' I W').
  - split; [exact W'|apply Forall_nil_2].
  - split; [exact W'|]. apply Forall_app. split; [exact P|].
    apply Forall_singleton. exact K.
Qed.

Ltac own_shape :=
  repeat (cbn -[formatPhoneNumber path_join String.append];
          first [ exact I | reflexivity | split
                | intros [?|?] | intros [] | intros ? ]).

Lemma handler_own (cwd number : string) :
  own_code (path_join cwd ("session_" ++ number)) number
    (handler cwd (Some number)).
Proof.
  destruct number as [|c number]; [own_shape|].
  unfold handler. cbn -[formatPhoneNumber path_join String.append].
  split; [reflexivity|]. intros [v|m]; own_shape.
Qed.

Lemma timeout_callback_own (dir number : string) :
  own_code dir number (timeout_callback dir).
Proof. intros []; own_shape. Qed.

Lemma connection_update_own (dir number : string) (u : update) :
  own_code dir number (connection_update dir number u).
Proof.
  unfold connection_update, disconnected.
  destruct (decide (connection u = Some "open")),
           (decide (connection u = Some "close")),
           (decide (statusCode u ≠ Some 401%Z)); own_shape.
Qed.

Lemma step_own (dir number : string) (e : event) (s : system) :
  own_system dir number s → own_system dir number (step e s).
Proof.
  intros [W P]. unfold step.
  destruct (exit_code (world_of s)); [split; assumption|].
  destruct e as [i r|u|creds| |b].
  - destruct (pending s !! i) as [[op k]|] eqn:Q; [|split; assumption].
    destruct (settle_frame op r (world_of s)) as (ST & _ & _ & SL & STI & _).
    destruct (settle op r (world_of s)) as [w' r']. simpl in *.
    apply spawn_own.
    + exact (proj1 (Forall_lookup _ _) P i (op, k) Q r').
    + apply (own_world_frame dir number (world_of s)); assumption.
    + apply Forall_delete, P.
  - destruct (connection_listener (world_of s)) as [[d n]|] eqn:L;
      [|split; assumption].
    destruct W as (O & CL & T). destruct (CL d n L) as [-> ->].
    apply spawn_own; [apply connection_update_own|split; [|split]|];
      assumption.
  - destruct (creds_listener (world_of s)) as [d|]; [|split; assumption].
    split; [|exact P]. simpl. unfold saveCreds.
    destruct (fs (world_of s) !! d); [exact W|].
    apply own_world_perform; [exact I|exact W].
  - destruct (timer (world_of s)) as [d|] eqn:T; [|split; assumption].
    destruct W as (O & CL & TI). rewrite (TI d T).
    apply spawn_own; [apply timeout_callback_own| |exact P].
    split; [exact O|]. split; [exact CL|]. simpl. discriminate.
  - split; assumption.
Qed.

Lemma run_own (dir number : string) (es : list event) :
  ∀ s : system, own_system dir number s → own_system dir number (run es s).
Proof.
  induction es as [|e es IH]; intros s P; [exact P|].
  rewrite run_cons. apply IH, step_own, P.
Qed.

(** X18: whatever the environment does, every operation a request asks
    for is its own: the file-system operations name its session
    directory (and read [creds.json] only), the pairing code is asked
    for the normalised number, and messages go to the address made of
    the number as it was given. *)
Theorem operations_addressed (cwd number : string)
    (fs0 : gmap string (gmap string string)) (es : list event) (op : extop) :
  In (called op)
    (trace (world_of (run es (start cwd (Some number) fs0)))) →
  own_op (path_join cwd ("session_" ++ number)) number op.
Proof.
  intros H.
  assert (S : own_system (path_join cwd ("session_" ++ number)) number
                (start cwd (Some number) fs0)).
  { apply spawn_own; [apply handler_own| |apply Forall_nil_2].
    split; [intros ? []|]. split; [intros ? ?|intros ?]; discriminate. }
  destruct (run_own _ _ es _ S) as [(O & _) _]. exact (O op H).
Qed.

Lemma operations_addressed_witness :
  let w := world_of
             (run [settles 0 (resolved undefined);
                   settles 0 (resolved (auth_state false));
                   settles 0 (resolved undefined);
                   settles 0 (resolved (str "ABCD1234"))]
                (start "/app" (Some "0771234567") ∅)) in
  own_op (path_join "/app" ("session_" ++ "0771234567")) "0771234567"
    (requestPairingCode "620771234567").
Proof.
  intros w.
  assert (X : In (called (requestPairingCode "620771234567")) (trace w))
    by (vm_compute; do 4 right; left; reflexivity).
  exact (operations_addressed "/app" "0771234567" ∅ _ _ X).
Defined.

End Addressing.
